(** * PyHive: the SQLAlchemy dialect for Hive ([pyhive/sqlalchemy_hive.py])

    A shallow embedding of the dialect's type classes, statement and DDL
    compilers and schema introspection, with the properties stated about
    them.

    Conventions of the embedding.
    - A Python [str] is a [string]; a character is a code point below 256
      and the character classes ([\s], [\w], [str.strip]) are those of
      CPython on that range.
    - A raised exception is a value of [exn]; a call returns [outcome A].
    - Classes are first-class objects in the source ([_type_map] holds
      classes, and [get_columns] assigns an attribute on one), so class
      attributes live in an explicit store threaded through the calls.
    - The [re] module is embedded as a backtracking matcher over the
      constructs the source's patterns use. *)

From Stdlib Require Import Ascii String List Bool Arith Lia ZArith.
From stdpp Require Import base option list strings gmap sorting.

(** ** Exceptions and results *)

Inductive exn : Type :=
| NotImplementedError (msg : string)
| ValueError (msg : string)
| AssertionError (msg : string)
| KeyError (key : string)
| TypeError
| AttributeError
| IndexError
| UnboundLocalError (name : string)
| NoSuchTableError (table : string)
| OperationalError (text : string)
| OtherError (tag : string).

Inductive outcome (A : Type) : Type :=
| Ok (a : A)
| Raise (e : exn).

Arguments Ok {A} a.
Arguments Raise {A} e.

(** Sequencing: the first exception raised ends the computation. *)
#[global] Instance outcome_ret : MRet outcome := fun A a => Ok a.
#[global] Instance outcome_bind : MBind outcome := fun A B k r =>
  match r with
  | Ok a => k a
  | Raise e => Raise e
  end.

(** ** Strings *)

Module Str.

(** [s.count(c)] for a one-character needle. *)
Fixpoint count (c : ascii) (s : string) : nat :=
  match s with
  | EmptyString => 0
  | String a s' => (if Ascii.eqb a c then 1 else 0) + count c s'
  end.

(** [s.index(c)]: position of the first occurrence, [None] for the
    [ValueError] of Python. *)
Fixpoint index (c : ascii) (s : string) : option nat :=
  match s with
  | EmptyString => None
  | String a s' => if Ascii.eqb a c then Some 0 else S <$> index c s'
  end.

(** [s[n:]] *)
Fixpoint drop (n : nat) (s : string) : string :=
  match n, s with
  | 0, _ => s
  | S n', String _ s' => drop n' s'
  | S _, EmptyString => EmptyString
  end.

(** [s[:n]] *)
Fixpoint take (n : nat) (s : string) : string :=
  match n, s with
  | 0, _ => EmptyString
  | S n', String a s' => String a (take n' s')
  | S _, EmptyString => EmptyString
  end.

(** [s[i:j]] *)
Definition slice (i j : nat) (s : string) : string := take (j - i) (drop i s).

(** [sep.join(l)] *)
Fixpoint join (sep : string) (l : list string) : string :=
  match l with
  | [] => ""
  | [x] => x
  | x :: l' => x +:+ sep +:+ join sep l'
  end.

(** [Py_UNICODE_ISSPACE] on code points below 256. *)
Definition isspace (a : ascii) : bool :=
  let n := nat_of_ascii a in
  ((9 <=? n) && (n <=? 13)) || ((28 <=? n) && (n <=? 32))
  || (n =? 133) || (n =? 160).

(** [Py_UNICODE_ISALNUM] on code points below 256. *)
Definition isalnum (a : ascii) : bool :=
  let n := nat_of_ascii a in
  ((48 <=? n) && (n <=? 57)) || ((65 <=? n) && (n <=? 90))
  || ((97 <=? n) && (n <=? 122))
  || (n =? 170) || (n =? 178) || (n =? 179) || (n =? 181)
  || (n =? 185) || (n =? 186) || ((188 <=? n) && (n <=? 190))
  || ((192 <=? n) && (n <=? 214)) || ((216 <=? n) && (n <=? 246))
  || (248 <=? n).

Fixpoint lstrip (s : string) : string :=
  match s with
  | EmptyString => EmptyString
  | String a s' => if isspace a then lstrip s' else s
  end.

Fixpoint rstrip (s : string) : string :=
  match s with
  | EmptyString => EmptyString
  | String a s' =>
      match rstrip s' with
      | EmptyString => if isspace a then EmptyString else String a EmptyString
      | r => String a r
      end
  end.

(** [s.strip()] *)
Definition strip (s : string) : string := rstrip (lstrip s).

(** Truth value of a string: the empty string is falsy. *)
Definition truthy (s : string) : bool :=
  match s with EmptyString => false | _ => true end.

(** Truth value of an optional string ([None] is falsy). *)
Definition otruthy (o : option string) : bool :=
  match o with Some s => truthy s | None => false end.

End Str.

(** ** The [re] module *)

Module Re.

Definition charset := ascii -> bool.

(** A compiled pattern is a sequence of nodes.  Every repetition in the
    source's patterns is a greedy repetition of a one-character class. *)
Inductive node : Type :=
| In_ (p : charset)                    (* one character of a class *)
| MaxRepeat (at_least_one : bool) (p : charset)   (* [p*] or [p+] *)
| GroupOpen (g : nat)
| GroupClose (g : nat)
| AtBeginning.                         (* [^] *)

Definition pattern := list node.

(** Character classes. *)
Definition literal (c : ascii) : charset := fun a => Ascii.eqb a c.
Definition any : charset := fun a => negb (Ascii.eqb a "010"%char).   (* [.] *)
Definition space : charset := Str.isspace.                            (* [\s] *)
Definition word : charset :=                                          (* [\w] *)
  fun a => Str.isalnum a || Ascii.eqb a "_"%char.
Definition negate (p : charset) : charset := fun a => negb (p a).     (* [[^...]] *)

Definition lower (a : ascii) : ascii :=
  let n := nat_of_ascii a in
  if (65 <=? n) && (n <=? 90) then ascii_of_nat (n + 32) else a.
(** A literal ASCII character under [re.I]. *)
Definition literal_i (c : ascii) : charset := fun a => Ascii.eqb (lower a) (lower c).

(** The nodes of a literal text. *)
Fixpoint lit (s : string) : pattern :=
  match s with
  | EmptyString => []
  | String c s' => In_ (literal c) :: lit s'
  end.
Fixpoint lit_i (s : string) : pattern :=
  match s with
  | EmptyString => []
  | String c s' => In_ (literal_i c) :: lit_i s'
  end.

(** Group marks: where each group was opened, and the span of each
    closed group. *)
Record marks : Type := Marks {
  opened : list (nat * nat);
  closed : list (nat * (nat * nat))
}.
Definition no_marks : marks := Marks [] [].

Fixpoint assoc {V : Type} (g : nat) (l : list (nat * V)) : option V :=
  match l with
  | [] => None
  | (k, v) :: l' => if k =? g then Some v else assoc g l'
  end.

Definition open_group (g pos : nat) (m : marks) : marks :=
  Marks ((g, pos) :: opened m) (closed m).
Definition close_group (g pos : nat) (m : marks) : marks :=
  match assoc g (opened m) with
  | Some b => Marks (opened m) ((g, (b, pos)) :: closed m)
  | None => m
  end.

Section Matcher.
Context {R : Type}.

(** Greedy repetition: take as many characters of [p] as possible,
    and give one back at a time while the rest fails. *)
Fixpoint greedy (p : charset) (k : nat -> string -> option R)
    (pos : nat) (s : string) : option R :=
  match s with
  | String a s' =>
      if p a then
        match greedy p k (S pos) s' with
        | Some r => Some r
        | None => k pos s
        end
      else k pos s
  | EmptyString => k pos s
  end.
End Matcher.

(** Match the nodes at position [pos], where [s] is the text from [pos]
    on; the result is the end position and the group marks. *)
Fixpoint match_here (ns : pattern) (m : marks) (pos : nat) (s : string)
    : option (nat * marks) :=
  match ns with
  | [] => Some (pos, m)
  | In_ p :: ns' =>
      match s with
      | String a s' => if p a then match_here ns' m (S pos) s' else None
      | EmptyString => None
      end
  | MaxRepeat false p :: ns' => greedy p (match_here ns' m) pos s
  | MaxRepeat true p :: ns' =>
      match s with
      | String a s' =>
          if p a then greedy p (match_here ns' m) (S pos) s' else None
      | EmptyString => None
      end
  | GroupOpen g :: ns' => match_here ns' (open_group g pos m) pos s
  | GroupClose g :: ns' => match_here ns' (close_group g pos m) pos s
  | AtBeginning :: ns' => if pos =? 0 then match_here ns' m pos s else None
  end.

(** A match object: the text searched, the span and the group spans. *)
Record match_object : Type := Match {
  subject : string;
  m_start : nat;
  m_end : nat;
  m_marks : marks
}.

(** [m.group(g)]; group 0 is the whole match, a group that took no part
    is [None]. *)
Definition group (mo : match_object) (g : nat) : option string :=
  match g with
  | 0 => Some (Str.slice (m_start mo) (m_end mo) (subject mo))
  | _ =>
      match assoc g (closed (m_marks mo)) with
      | Some (b, e) => Some (Str.slice b e (subject mo))
      | None => None
      end
  end.

Fixpoint search_from (ns : pattern) (whole : string) (pos : nat) (s : string)
    : option match_object :=
  match match_here ns no_marks pos s with
  | Some (e, m) => Some (Match whole pos e m)
  | None =>
      match s with
      | String _ s' => search_from ns whole (S pos) s'
      | EmptyString => None
      end
  end.

(** [re.search(pattern, s)] *)
Definition search (ns : pattern) (s : string) : option match_object :=
  search_from ns s 0 s.

(** [re.match(pattern, s)] *)
Definition match_ (ns : pattern) (s : string) : option match_object :=
  match match_here ns no_marks 0 s with
  | Some (e, m) => Some (Match s 0 e m)
  | None => None
  end.

(** A replacement template: literal text and group references. *)
Inductive piece : Type :=
| Text (s : string)
| GroupRef (g : nat).

Fixpoint expand (t : list piece) (mo : match_object) : string :=
  match t with
  | [] => ""
  | Text s :: t' => s +:+ expand t' mo
  | GroupRef g :: t' => default "" (group mo g) +:+ expand t' mo
  end.

(** [skip] counts the characters still covered by the last match. *)
Fixpoint sub_from (ns : pattern) (t : list piece) (whole : string)
    (skip pos : nat) (s : string) : string :=
  match skip with
  | S skip' =>
      match s with
      | String _ s' => sub_from ns t whole skip' (S pos) s'
      | EmptyString => ""
      end
  | 0 =>
      match match_here ns no_marks pos s with
      | Some (e, m) =>
          expand t (Match whole pos e m) +:+
          match s with
          | String a s' =>
              if e =? pos
              then String a (sub_from ns t whole 0 (S pos) s')
              else sub_from ns t whole (e - pos - 1) (S pos) s'
          | EmptyString => ""
          end
      | None =>
          match s with
          | String a s' => String a (sub_from ns t whole 0 (S pos) s')
          | EmptyString => ""
          end
      end
  end.

(** [pattern.sub(template, s)]: every non-overlapping match, leftmost
    first, is replaced by the expanded template. *)
Definition sub (ns : pattern) (t : list piece) (s : string) : string :=
  sub_from ns t s 0 0 s.

End Re.

(** ** The statement compiler ([HiveCompiler]) *)

Module HiveCompiler.
Import Re.

(** [(INSERT INTO) ([^\s]+) \([^\)]*\)] *)
Definition insert_regex : pattern :=
  [GroupOpen 1] ++ lit "INSERT INTO" ++ [GroupClose 1] ++ lit " " ++
  [GroupOpen 2; MaxRepeat true (negate space); GroupClose 2] ++ lit " (" ++
  [MaxRepeat false (negate (literal ")"%char))] ++ lit ")".

(** [(INSERT INTO) ([^\s]+) (PARTITION \([^\)]+\)) \([^\)]*\)] *)
Definition insert_partition_regex : pattern :=
  [GroupOpen 1] ++ lit "INSERT INTO" ++ [GroupClose 1] ++ lit " " ++
  [GroupOpen 2; MaxRepeat true (negate space); GroupClose 2] ++ lit " " ++
  [GroupOpen 3] ++ lit "PARTITION (" ++
  [MaxRepeat true (negate (literal ")"%char))] ++ lit ")" ++ [GroupClose 3] ++
  lit " (" ++ [MaxRepeat false (negate (literal ")"%char))] ++ lit ")".

(** [visit_insert], applied to the text [result] that the generic
    compiler ([super().visit_insert]) rendered. *)
Definition visit_insert (result : string) : outcome string :=
  match search insert_regex result with
  | Some _ =>
      Ok (sub insert_regex [GroupRef 1; Text " TABLE "; GroupRef 2] result)
  | None =>
      match search insert_partition_regex result with
      | Some _ =>
          Ok (sub insert_partition_regex
                [GroupRef 1; Text " TABLE "; GroupRef 2; Text " "; GroupRef 3]
                result)
      | None =>
          Raise (AssertionError ("Unexpected visit_insert result: " +:+ result))
      end
  end.

(** [visit_column], applied to the text [result] that the generic
    compiler ([super().visit_column]) rendered. *)
Definition visit_column (result : string) : outcome string :=
  let dot_count := Str.count "."%char result in
  if (dot_count =? 0) || (dot_count =? 1) || (dot_count =? 2) then
    if dot_count =? 2 then
      match Str.index "."%char result with
      | Some i => Ok (Str.drop (i + 1) result)
      | None => Raise (ValueError "substring not found")
      end
    else Ok result
  else
    Raise (AssertionError ("Unexpected visit_column result " +:+ result)).

End HiveCompiler.

(** ** Type classes

    The classes the module defines ([HiveStringTypeBase], [HiveDate],
    [HiveTimestamp], [HiveDecimal], [HiveArray]) and the SQLAlchemy classes
    it stores in [_type_map]. *)

Inductive type_class : Type :=
| types_Boolean
| mysql_tinyinteger
| types_SmallInteger
| types_Integer
| types_BigInteger
| types_Float
| types_String
| types_NullType
| HiveStringTypeBase
| HiveDate
| HiveTimestamp
| HiveDecimal
| HiveArray.

#[global] Instance type_class_eq_dec : EqDecision type_class.
Proof. solve_decision. Defined.

Definition type_class_code (c : type_class) : nat :=
  match c with
  | types_Boolean => 0 | mysql_tinyinteger => 1 | types_SmallInteger => 2
  | types_Integer => 3 | types_BigInteger => 4 | types_Float => 5
  | types_String => 6 | types_NullType => 7 | HiveStringTypeBase => 8
  | HiveDate => 9 | HiveTimestamp => 10 | HiveDecimal => 11 | HiveArray => 12
  end.

Definition type_class_of_code (n : nat) : type_class :=
  match n with
  | 0 => types_Boolean | 1 => mysql_tinyinteger | 2 => types_SmallInteger
  | 3 => types_Integer | 4 => types_BigInteger | 5 => types_Float
  | 6 => types_String | 7 => types_NullType | 8 => HiveStringTypeBase
  | 9 => HiveDate | 10 => HiveTimestamp | 11 => HiveDecimal | _ => HiveArray
  end.

#[global] Instance type_class_countable : Countable type_class.
Proof.
  apply (inj_countable' type_class_code type_class_of_code).
  intros []; reflexivity.
Defined.

(** The registry of type names: the items of the dict literal, and the
    dict. *)
Definition _type_map_items : list (string * type_class) :=
  [
    ("boolean", types_Boolean);
    ("tinyint", mysql_tinyinteger);
    ("smallint", types_SmallInteger);
    ("int", types_Integer);
    ("bigint", types_BigInteger);
    ("float", types_Float);
    ("double", types_Float);
    ("string", types_String);
    ("varchar", types_String);
    ("char", types_String);
    ("date", HiveDate);
    ("timestamp", HiveTimestamp);
    ("binary", types_String);
    ("array", HiveArray);
    ("map", types_String);
    ("struct", types_String);
    ("uniontype", types_String);
    ("decimal", HiveDecimal)
  ].

Definition _type_map : gmap string type_class := list_to_map _type_map_items.

(** *** Method resolution for the string-backed types

    The hooks of a type decorator that the classes of the module
    override. *)

Inductive method : Type :=
| process_bind_param_
| process_result_value_
| result_processor_
| adapt_.

(** The base class, for the classes declared in the module whose base is
    declared there too. *)
Definition base (c : type_class) : option type_class :=
  match c with
  | HiveDate | HiveTimestamp | HiveDecimal => Some HiveStringTypeBase
  | _ => None
  end.

(** The methods written in each class body. *)
Definition defines (c : type_class) (m : method) : bool :=
  match c, m with
  | HiveStringTypeBase, process_bind_param_ => true
  | (HiveDate | HiveTimestamp | HiveDecimal),
    (process_result_value_ | result_processor_ | adapt_) => true
  | HiveArray, result_processor_ => true
  | _, _ => false
  end.

(** The class of the module whose body supplies method [m] for an instance
    of [c]: the class itself, or else its base. *)
Definition resolve (c : type_class) (m : method) : option type_class :=
  if defines c m then Some c
  else match base c with
       | Some b => if defines b m then Some b else None
       | None => None
       end.

(** Values bound or returned. *)
Inductive py_value : Type :=
| PyNone
| PyStr (s : string)
| PyInt (z : Z)
| PyDate (year month day : Z)
| PyDatetime (year month day hour minute second : Z)
| PyDecimal (digits : string).

Inductive dialect : Type := HiveDialect_ | HiveHTTPDialect_ | HiveHTTPSDialect_.

(** [HiveStringTypeBase.process_bind_param] *)
Definition HiveStringTypeBase_process_bind_param
    (value : py_value) (d : dialect) : outcome py_value :=
  Raise (NotImplementedError "Writing to Hive not supported").

(** [t.process_bind_param(value, dialect)] for an instance [t] of class [c].
    Only [HiveStringTypeBase] has a body for it in the module. *)
Definition process_bind_param (c : type_class) (value : py_value) (d : dialect)
    : outcome py_value :=
  match resolve c process_bind_param_ with
  | Some HiveStringTypeBase => HiveStringTypeBase_process_bind_param value d
  | _ => Raise AttributeError
  end.

(** *** [HiveArray] *)

(** What can be passed as [item_type]: a class, an instance, or a name. *)
Inductive type_argument : Type :=
| Class_ (c : type_class)
| Instance (c : type_class)
| HiveArrayInstance (item_type : type_argument) (dimensions : option Z)
    (zero_indexes : bool)
| Name (s : string).

Definition isinstance_HiveArray (t : type_argument) : bool :=
  match t with
  | HiveArrayInstance _ _ _ | Instance HiveArray => true
  | _ => false
  end.

(** [item_type()]: a class called without arguments.  [HiveArray] itself
    has a required parameter. *)
Definition instantiate (c : type_class) : outcome type_argument :=
  match c with
  | HiveArray => Raise TypeError
  | _ => Ok (Instance c)
  end.

(** [HiveArray.__init__]; the result is the constructed instance. *)
Definition HiveArray_init (item_type : type_argument) (dimensions : option Z)
    (zero_indexes : bool) : outcome type_argument :=
  if isinstance_HiveArray item_type then
    Raise (ValueError
      "Do not nest ARRAY types; ARRAY(basetype) handles multi-dimensional arrays of basetype")
  else
    item_type ← match item_type with
                | Class_ c => instantiate c
                | _ => Ok item_type
                end;
    item_type ← match item_type with
                | Name s =>
                    match _type_map !! s with
                    | Some c => Ok (Class_ c)
                    | None => Raise (KeyError s)
                    end
                | _ => Ok item_type
                end;
    Ok (HiveArrayInstance item_type dimensions zero_indexes).

(** ** The DDL compiler ([HiveDDLCompiler]) *)

Module HiveDDLCompiler.

(** The part of a table that [post_create_table] reads: its comment and
    the dialect keyword arguments, each absent or present.
    [hive_table_properties] is a dict, kept as its items in insertion
    order. *)
Record table : Type := Table {
  comment : option string;
  hive_partitioned_by : option string;
  hive_clustered_by : option string;
  hive_stored_as : option string;
  hive_table_properties : option (list (string * string))
}.

(** [<] on [(str, str)] tuples: the first components that differ decide. *)
Definition tuple_lt (x y : string * string) : bool :=
  if String.eqb x.1 y.1 then
    if String.eqb x.2 y.2 then false else String.ltb x.2 y.2
  else String.ltb x.1 y.1.

(** [sorted]: a stable sort that compares with [<] only. *)
Fixpoint insert (x : string * string) (l : list (string * string))
    : list (string * string) :=
  match l with
  | [] => [x]
  | y :: l' => if tuple_lt y x then y :: insert x l' else x :: l
  end.

Fixpoint sorted (l : list (string * string)) : list (string * string) :=
  match l with
  | [] => []
  | x :: l' => insert x (sorted l')
  end.

(** The list comprehension over the sorted items. *)
Definition table_properties (items : list (string * string)) : list string :=
  (fun kv => "'" +:+ kv.1 +:+ "' = '" +:+ kv.2 +:+ "'") <$> sorted items.

(** The generator [table_opts], as the list of what it yields. *)
Definition table_opts (t : table) : list string :=
  (match comment t with
   | Some c => if Str.truthy c then ["COMMENT '" +:+ c +:+ "'"] else []
   | None => []
   end) ++
  (match hive_partitioned_by t with
   | Some v => ["PARTITIONED BY " +:+ v]
   | None => []
   end) ++
  (match hive_clustered_by t with
   | Some v => ["CLUSTERED BY " +:+ v]
   | None => []
   end) ++
  (match hive_stored_as t with
   | Some v => ["STORED AS " +:+ v]
   | None => []
   end) ++
  (match hive_table_properties t with
   | Some items =>
       ["TBLPROPERTIES (" +:+ Str.join ", " (table_properties items) +:+ ")"]
   | None => []
   end).

Definition newline : string := String "010"%char EmptyString.

Definition post_create_table (t : table) : string :=
  newline +:+ Str.join newline (table_opts t).

End HiveDDLCompiler.

(** ** The dialect ([HiveDialect]) *)

Module HiveDialect.
Import Re.

(** A row of a result set: its cells, each a string or [None]. *)
Definition row : Type := list (option string).

(** The mutable state outside the call: the [item_type] attribute that
    has been assigned on class objects, and the warnings emitted through
    [util.warn]. *)
Record runtime : Type := Runtime {
  item_type_attr : gmap type_class type_class;
  warnings : list string
}.

(** [cls.item_type = value] *)
Definition set_item_type (cls value : type_class) (rt : runtime) : runtime :=
  Runtime (<[cls := value]> (item_type_attr rt)) (warnings rt).

(** [util.warn(msg)] *)
Definition warn (msg : string) (rt : runtime) : runtime :=
  Runtime (item_type_attr rt) (warnings rt ++ [msg]).

(** A column dict.  ["type"] holds the class object itself. *)
Record column : Type := Column {
  c_name : option string;
  c_type : type_class;
  c_nullable : bool;
  c_default : option py_value;
  c_comment : option string
}.

(** An index dict. *)
Record index : Type := Index {
  i_name : string;
  i_column_names : list (option string);
  i_unique : bool
}.

(** [%s] of a cell. *)
Definition percent_s (o : option string) : string := default "None" o.

(** [TExecuteStatementResp.*SemanticException.*Table not found {}] with
    the escaped table name, which matches that name literally. *)
Definition table_not_found_regex (full_table : string) : pattern :=
  lit "TExecuteStatementResp" ++ [MaxRepeat false any] ++
  lit "SemanticException" ++ [MaxRepeat false any] ++
  lit "Table not found " ++ lit full_table.

(** [Table .* does not exist] *)
Definition does_not_exist_regex : pattern :=
  lit "Table " ++ [MaxRepeat false any] ++ lit " does not exist".

(** [^\w+] *)
Definition type_name_regex : pattern := [AtBeginning; MaxRepeat true word].

(** [^array<(\w+)>] under [re.I] *)
Definition array_regex : pattern :=
  [AtBeginning] ++ lit_i "array<" ++
  [GroupOpen 1; MaxRepeat true word; GroupClose 1] ++ lit_i ">".

Definition partition_marker : string := "# Partition Information".

(** [[col.strip() if col else None for col in row]] *)
Definition strip_row (r : row) : row :=
  (fun col => match col with
              | Some c => if Str.truthy c then Some (Str.strip c) else None
              | None => None
              end) <$> r.

(** [[row for row in rows if row[0] and row[0] != "# col_name"]] *)
Fixpoint filter_rows (rows : list row) : outcome (list row) :=
  match rows with
  | [] => Ok []
  | r :: rows' =>
      match r with
      | [] => Raise IndexError
      | c0 :: _ =>
          rest ← filter_rows rows';
          if Str.otruthy c0 && negb (bool_decide (c0 = Some "# col_name"))
          then Ok (r :: rest) else Ok rest
      end
  end.

(** The loop of [get_columns] over the filtered rows; [result] is the
    list built so far. *)
Fixpoint columns_loop (rows : list row) (result : list column) (rt : runtime)
    : outcome (list column) * runtime :=
  match rows with
  | [] => (Ok result, rt)
  | [col_name; col_type; _comment] :: rows' =>
      if bool_decide (col_name = Some partition_marker) then (Ok result, rt)
      else
        match col_type with
        | None => (Raise TypeError, rt)
        | Some col_type =>
            match search type_name_regex col_type with
            | None => (Raise AttributeError, rt)
            | Some m =>
                let col_type_name := default "" (group m 0) in
                let '(mapped_type, rt) :=
                  match _type_map !! col_type_name with
                  | Some t => (t, rt)
                  | None =>
                      (types_NullType,
                       warn ("Did not recognize type '" +:+ col_type +:+
                             "' of column '" +:+ percent_s col_name +:+ "'") rt)
                  end in
                let entry := Column col_name mapped_type true None _comment in
                match search array_regex col_type with
                | Some array_match =>
                    let item := default "" (group array_match 1) in
                    match _type_map !! item with
                    | Some item_type =>
                        columns_loop rows' (result ++ [entry])
                          (set_item_type mapped_type item_type rt)
                    | None => (Raise (KeyError item), rt)
                    end
                | None => columns_loop rows' (result ++ [entry]) rt
                end
            end
        end
  | _ :: _ => (Raise (ValueError "unpack"), rt)   (* not three cells *)
  end.

(** The first loop of [get_indexes]: the value of [i] when the loop is
    left, [None] while [i] is unbound. *)
Fixpoint marker_loop (rows : list row) (n : nat) (i : option nat)
    : outcome (option nat) :=
  match rows with
  | [] => Ok i
  | [col_name; _col_type; _comment] :: rows' =>
      if bool_decide (col_name = Some partition_marker) then Ok (Some n)
      else marker_loop rows' (S n) (Some n)
  | _ :: _ => Raise (ValueError "unpack")
  end.

(** The second loop of [get_indexes]. *)
Fixpoint names_loop (rows : list row) (col_names : list (option string))
    : outcome (list (option string)) :=
  match rows with
  | [] => Ok col_names
  | [col_name; _col_type; _comment] :: rows' =>
      names_loop rows' (col_names ++ [col_name])
  | _ :: _ => Raise (ValueError "unpack")
  end.

(** [[row[0] for row in rows]] *)
Fixpoint first_cells (rows : list row) : outcome (list (option string)) :=
  match rows with
  | [] => Ok []
  | [] :: _ => Raise IndexError
  | (c0 :: _) :: rows' => rest ← first_cells rows'; Ok (c0 :: rest)
  end.

Section Connection.
(** The connection is a collaborator: its state, what executing a
    statement text returns or raises, and the identifier quoting of
    the preparer. *)
Context {connection : Type}.
Variable execute : string -> connection -> outcome (list row) * connection.
Variable quote_identifier : string -> string.

Definition full_table_name (table_name : string) (schema : option string)
    : string :=
  match schema with
  | Some schema =>
      if Str.truthy schema then schema +:+ "." +:+ table_name else table_name
  | None => table_name
  end.

Definition _get_table_columns (conn : connection) (table_name : string)
    (schema : option string) : outcome (list row) * connection :=
  let full_table := full_table_name table_name schema in
  match execute ("DESCRIBE " +:+ full_table) conn with
  | (Raise (OperationalError text), conn) =>
      match search (table_not_found_regex full_table) text with
      | Some _ => (Raise (NoSuchTableError full_table), conn)
      | None => (Raise (OperationalError text), conn)
      end
  | (Raise e, conn) => (Raise e, conn)
  | (Ok rows, conn) =>
      match rows with
      | [r] =>
          match r with
          | [] => (Raise AttributeError, conn)
          | None :: _ => (Raise TypeError, conn)
          | Some col_name :: _ =>
              match match_ does_not_exist_regex col_name with
              | Some _ => (Raise (NoSuchTableError full_table), conn)
              | None => (Ok rows, conn)
              end
          end
      | _ => (Ok rows, conn)
      end
  end.

Definition has_table (conn : connection) (table_name : string)
    (schema : option string) : outcome bool * connection :=
  match _get_table_columns conn table_name schema with
  | (Ok _, conn) => (Ok true, conn)
  | (Raise (NoSuchTableError _), conn) => (Ok false, conn)
  | (Raise e, conn) => (Raise e, conn)
  end.

Definition get_columns (conn : connection) (table_name : string)
    (schema : option string) (rt : runtime)
    : outcome (list column) * connection * runtime :=
  match _get_table_columns conn table_name schema with
  | (Raise e, conn) => (Raise e, conn, rt)
  | (Ok rows, conn) =>
      let rows := strip_row <$> rows in
      match filter_rows rows with
      | Raise e => (Raise e, conn, rt)
      | Ok rows =>
          let '(result, rt) := columns_loop rows [] rt in
          (result, conn, rt)
      end
  end.

Definition get_indexes (conn : connection) (table_name : string)
    (schema : option string) : outcome (list index) * connection :=
  match _get_table_columns conn table_name schema with
  | (Raise e, conn) => (Raise e, conn)
  | (Ok rows, conn) =>
      let rows := strip_row <$> rows in
      (rows ← filter_rows rows;
       i ← marker_loop rows 0 None;
       match i with
       | None => Raise (UnboundLocalError "i")
       | Some i =>
           col_names ← names_loop (drop (i + 1) rows) [];
           match col_names with
           | [] => Ok []
           | _ => Ok [Index "partition" col_names false]
           end
       end, conn)
  end.

Definition get_table_names (conn : connection) (schema : option string)
    : outcome (list (option string)) * connection :=
  let query := "SHOW TABLES" in
  let query :=
    match schema with
    | Some schema =>
        if Str.truthy schema
        then query +:+ " IN " +:+ quote_identifier schema
        else query
    | None => query
    end in
  match execute query conn with
  | (Ok rows, conn) => (first_cells rows, conn)
  | (Raise e, conn) => (Raise e, conn)
  end.

Definition get_view_names (conn : connection) (schema : option string)
    : outcome (list (option string)) * connection :=
  get_table_names conn schema.

End Connection.

End HiveDialect.

(** ** A scripted connection

    A connection that answers each statement text from a fixed script and
    counts the statements executed; used to run the dialect on concrete
    descriptions. *)

Module Scripted.

Definition execute (script : list (string * outcome (list HiveDialect.row)))
    (query : string) (executed : nat)
    : outcome (list HiveDialect.row) * nat :=
  (default (Raise (OtherError "unexpected statement"))
     ((list_to_map script : gmap string _) !! query),
   S executed).

Definition quote_identifier (name : string) : string :=
  "`" +:+ name +:+ "`".

End Scripted.

(** ** What a pattern accepts

    The words a pattern matches, stated without the search order, to say
    which texts a search finds a match in. *)

Module ReSpec.
Import Re.

Fixpoint all_in (p : charset) (s : string) : bool :=
  match s with
  | EmptyString => true
  | String a s' => p a && all_in p s'
  end.

(** [accepts ns pos w]: the nodes [ns] can match exactly the word [w]
    when it starts at position [pos] of the text. *)
Fixpoint accepts (ns : pattern) (pos : nat) (w : string) : Prop :=
  match ns with
  | [] => w = ""
  | In_ p :: ns' =>
      ∃ a w', w = String a w' ∧ p a = true ∧ accepts ns' (S pos) w'
  | MaxRepeat b p :: ns' =>
      ∃ u v, w = u +:+ v ∧ all_in p u = true ∧ (b = true → u ≠ "") ∧
             accepts ns' (pos + String.length u) v
  | GroupOpen _ :: ns' => accepts ns' pos w
  | GroupClose _ :: ns' => accepts ns' pos w
  | AtBeginning :: ns' => pos = 0 ∧ accepts ns' pos w
  end.

(** A text in which some word accepted by [ns] occurs. *)
Definition occurs (ns : pattern) (s : string) : Prop :=
  ∃ pre w post, s = pre +:+ w +:+ post ∧ accepts ns (String.length pre) w.

(** The texts that carry the table-not-found signature of
    [_get_table_columns] for [full_table]: the three fixed parts in
    order, with no line break between them. *)
Definition table_not_found_text (full_table text : string) : Prop :=
  ∃ pre m1 m2 post,
    text = pre +:+ "TExecuteStatementResp" +:+ m1 +:+ "SemanticException"
               +:+ m2 +:+ "Table not found " +:+ full_table +:+ post
    ∧ all_in any m1 = true ∧ all_in any m2 = true.

(** The texts that contain [SemanticException], then anything, then
    [Table not found] and the table name. *)
Definition contains_signature (full_table text : string) : Prop :=
  ∃ pre mid post,
    text = pre +:+ "SemanticException" +:+ mid
               +:+ "Table not found " +:+ full_table +:+ post.

End ReSpec.

(** ** The order of the sorted table properties *)

Module DDLSpec.

(** [x] is before or equal to [y] in the order of [(key, value)] tuples:
    by key, and by value under equal keys. *)
Definition tuple_le (x y : string * string) : Prop :=
  ((x.1 ≤ y.1)%string ∧ x.1 ≠ y.1) ∨ (x.1 = y.1 ∧ (x.2 ≤ y.2)%string).

End DDLSpec.

(** ** The rest of the module

    The execution context, the connection arguments, the result
    processors of the string-backed types and the remaining reflection
    calls. *)

Module StrSplit.

(** [c in s] for a one-character needle. *)
Fixpoint contains (c : ascii) (s : string) : bool :=
  match s with
  | EmptyString => false
  | String a s' => Ascii.eqb a c || contains c s'
  end.

(** [s.split(c)] for a one-character separator: never empty. *)
Fixpoint split (c : ascii) (s : string) : list string :=
  match s with
  | EmptyString => [EmptyString]
  | String a s' =>
      if Ascii.eqb a c then EmptyString :: split c s'
      else match split c s' with
           | x :: l => String a x :: l
           | [] => [String a EmptyString]
           end
  end.

End StrSplit.

Module HiveExecutionContext.

(** [self.execution_options.get("hive_raw_colnames", False)] *)
Definition _preserve_raw_colnames (execution_options : gmap string bool) : bool :=
  default false (execution_options !! "hive_raw_colnames").

(** [_translate_colname]: the name to use and the original name, if it
    was translated. *)
Definition _translate_colname (execution_options : gmap string bool)
    (colname : string) : string * option string :=
  if negb (_preserve_raw_colnames execution_options)
     && StrSplit.contains "."%char colname
  then (List.last (StrSplit.split "."%char colname) "", Some colname)
  else (colname, None).

End HiveExecutionContext.

Module ConnectArgs.

(** The parts of a URL that [create_connect_args] reads. *)
Record URL : Type := Url {
  host : option string;
  port : option Z;
  username : option string;
  password : option string;
  database : option string;
  query : gmap string string
}.

Definition of_option (o : option string) : py_value :=
  match o with Some s => PyStr s | None => PyNone end.

(** [url.port or 10000] *)
Definition port_or_default (u : URL) : py_value :=
  match port u with
  | Some p => if (p =? 0)%Z then PyInt 10000 else PyInt p
  | None => PyInt 10000
  end.

(** [s or d] for an optional string. *)
Definition str_or (o : option string) (d : py_value) : py_value :=
  match o with
  | Some s => if Str.truthy s then PyStr s else d
  | None => d
  end.

(** [kwargs.update(url.query)] *)
Definition update (kwargs : gmap string py_value) (q : gmap string string)
    : gmap string py_value :=
  (PyStr <$> q) ∪ kwargs.

(** [HiveDialect.create_connect_args] *)
Definition create_connect_args (u : URL)
    : list py_value * gmap string py_value :=
  let kwargs : gmap string py_value :=
    <["database" := str_or (database u) (PyStr "default")]>
    (<["password" := of_option (password u)]>
    (<["username" := of_option (username u)]>
    (<["port" := port_or_default u]>
    (<["host" := of_option (host u)]> ∅)))) in
  ([], update kwargs (query u)).

(** The [scheme] attribute of the HTTP dialects. *)
Definition scheme (d : dialect) : string :=
  match d with
  | HiveHTTPSDialect_ => "https"
  | _ => "http"
  end.

(** [HiveHTTPDialect.create_connect_args], also inherited by
    [HiveHTTPSDialect]. *)
Definition http_create_connect_args (d : dialect) (u : URL)
    : list py_value * gmap string py_value :=
  let kwargs : gmap string py_value :=
    <["password" := str_or (password u) PyNone]>
    (<["username" := str_or (username u) PyNone]>
    (<["scheme" := PyStr (scheme d)]>
    (<["port" := port_or_default u]>
    (<["host" := of_option (host u)]> ∅)))) in
  if bool_decide (query u = ∅) then ([], kwargs)
  else ([], update kwargs (query u)).

End ConnectArgs.

Module ResultProcessors.

Section Parsers.
(** [dateutil.parser.parse] and the [Decimal] constructor are
    collaborators: what they return or raise for a value. *)
Variable parse : py_value -> outcome (Z * Z * Z * Z * Z * Z).
Variable Decimal : py_value -> outcome string.

(** The [process] function of [HiveDate.result_processor]. *)
Definition HiveDate_process (value : py_value) : outcome py_value :=
  match value with
  | PyDatetime y m d _ _ _ => Ok (PyDate y m d)
  | PyDate _ _ _ => Ok value
  | PyNone => Ok PyNone
  | _ =>
      '(y, m, d, _, _, _) ← parse value;
      Ok (PyDate y m d)
  end.

(** The [process] function of [HiveTimestamp.result_processor]. *)
Definition HiveTimestamp_process (value : py_value) : outcome py_value :=
  match value with
  | PyDatetime _ _ _ _ _ _ => Ok value
  | PyNone => Ok PyNone
  | _ =>
      '(y, m, d, h, mi, s) ← parse value;
      Ok (PyDatetime y m d h mi s)
  end.

(** The [process] function of [HiveDecimal.result_processor]. *)
Definition HiveDecimal_process (value : py_value) : outcome py_value :=
  match value with
  | PyDecimal _ => Ok value
  | PyNone => Ok PyNone
  | _ => digits ← Decimal value; Ok (PyDecimal digits)
  end.

End Parsers.

End ResultProcessors.

Module Reflection.
Import HiveDialect.

Section Connection.
Context {connection : Type}.
Variable execute : string -> connection -> outcome (list row) * connection.

(** [get_schema_names] *)
Definition get_schema_names (conn : connection)
    : outcome (list (option string)) * connection :=
  match execute "SHOW SCHEMAS" conn with
  | (Ok rows, conn) => (first_cells rows, conn)
  | (Raise e, conn) => (Raise e, conn)
  end.

(** [get_foreign_keys] and [get_pk_constraint] *)
Definition get_foreign_keys (conn : connection) (table_name : string)
    (schema : option string) : outcome (list index) * connection :=
  (Ok [], conn).

Definition get_pk_constraint (conn : connection) (table_name : string)
    (schema : option string) : outcome (list index) * connection :=
  (Ok [], conn).

End Connection.

End Reflection.

(** ** Vocabulary for the statements about introspection *)

Module IntrospectionSpec.
Import Re ReSpec HiveDialect.

(** The first cell of a row, [None] for a row without cells. *)
Definition first_cell (r : row) : option string := default None (head r).

(** The third cell of a three-cell row. *)
Definition third_cell (r : row) : option string := default None (r !! 2).

Definition is_marker (r : row) : bool :=
  bool_decide (head r = Some (Some partition_marker)).

(** The rows before the first partition marker row. *)
Fixpoint before_marker (rows : list row) : list row :=
  match rows with
  | [] => []
  | r :: rows' => if is_marker r then [] else r :: before_marker rows'
  end.

(** The rows after the first partition marker row. *)
Fixpoint after_marker (rows : list row) : list row :=
  match rows with
  | [] => []
  | r :: rows' => if is_marker r then rows' else after_marker rows'
  end.

Definition three_cells (r : row) : Prop := length r = 3.

(** A pattern without [^]. *)
Fixpoint anchor_free (ns : pattern) : bool :=
  match ns with
  | [] => true
  | AtBeginning :: _ => false
  | _ :: ns' => anchor_free ns'
  end.

(** The first cells that [_get_table_columns] takes for the message of a
    missing table: [Table], anything on one line, [does not exist], and
    whatever follows. *)
Definition does_not_exist_text (name : string) : Prop :=
  ∃ m post, name = "Table " +:+ m +:+ " does not exist" +:+ post
            ∧ all_in any m = true.

(** The classes the registry can resolve a name to. *)
Definition registered (c : type_class) : Prop :=
  ∃ name, _type_map !! name = Some c.

Definition is_NullType (c : column) : bool :=
  bool_decide (c_type c = types_NullType).

End IntrospectionSpec.

(** ** A sample description

    A description with a comment, an unknown type, an array, a padded
    name, the partition marker, a header row and a partition column; what
    is left of it after the stripping and the filtering; and the columns
    it is reflected to. *)

Module Sample.
Import HiveDialect.

Definition raw_t : list row :=
  [[Some "a"; Some "int"; Some "c1"];
   [Some " b "; Some "foo"; None];
   [Some "c"; Some "array<int>"; None];
   [Some ""; None; None];
   [Some "# Partition Information"; None; None];
   [Some "# col_name"; Some "data_type"; Some "comment"];
   [Some "p"; Some "string"; None]].

Definition rows_t : list row :=
  [[Some "a"; Some "int"; Some "c1"];
   [Some "b"; Some "foo"; None];
   [Some "c"; Some "array<int>"; None];
   [Some "# Partition Information"; None; None];
   [Some "p"; Some "string"; None]].

Definition columns_t : list column :=
  [Column (Some "a") types_Integer true None (Some "c1");
   Column (Some "b") types_NullType true None None;
   Column (Some "c") HiveArray true None None].

Definition runtime_t : runtime :=
  set_item_type HiveArray types_Integer
    (warn "Did not recognize type 'foo' of column 'b'" (Runtime ∅ [])).

Definition script : list (string * outcome (list row)) :=
  [("DESCRIBE t", Ok raw_t);
   ("DESCRIBE blank",
    Ok [[Some ""; None; None];
        [Some "# col_name"; Some "data_type"; Some "comment"]]);
   ("DESCRIBE db.gone", Ok [[Some "Table db.gone does not exist"; None; None]]);
   ("SHOW SCHEMAS", Ok [[Some "default"]; [Some "db"]]);
   ("SHOW TABLES", Ok [[Some "t"]; [Some "u"]])].

Definition url : ConnectArgs.URL :=
  ConnectArgs.Url (Some "example.org") (Some 0%Z) (Some "") None None
    {["auth" := "NOSASL"]}.

End Sample.

(** * Properties *)

(** ** Strings *)

Section StringFacts.

Lemma str_app_nil_l (s : string) : "" +:+ s = s.
Proof. reflexivity. Qed.

Lemma str_app_cons (a : ascii) (s t : string) :
  String a s +:+ t = String a (s +:+ t).
Proof. reflexivity. Qed.

Lemma str_app_nil_r (s : string) : s +:+ "" = s.
Proof. induction s as [|a s IH]; [done|]. by rewrite str_app_cons, IH. Qed.

Lemma str_app_assoc (s t u : string) : (s +:+ t) +:+ u = s +:+ t +:+ u.
Proof.
  induction s as [|a s IH]; [done|]. by rewrite !str_app_cons, IH.
Qed.

Lemma str_length_app (s t : string) :
  String.length (s +:+ t) = String.length s + String.length t.
Proof.
  induction s as [|a s IH]; [done|]. rewrite str_app_cons. simpl. by rewrite IH.
Qed.

End StringFacts.

(** ** The matcher finds a match exactly where the pattern accepts a word *)

Section MatcherFacts.
Import Re ReSpec.

Lemma greedy_sound {R : Type} (p : charset) (k : nat → string → option R)
    (s : string) : ∀ pos r,
  greedy p k pos s = Some r →
  ∃ u v, s = u +:+ v ∧ all_in p u = true ∧ k (pos + String.length u) v = Some r.
Proof.
  induction s as [|a s IH]; intros pos r H; simpl in H.
  - exists "", "". by rewrite Nat.add_0_r.
  - destruct (p a) eqn:Hp.
    + destruct (greedy p k (S pos) s) as [r'|] eqn:Hg.
      * injection H as ->.
        apply IH in Hg as (u & v & -> & Hu & Hk).
        exists (String a u), v. simpl. rewrite Hp, Hu.
        by rewrite Nat.add_succ_r.
      * exists "", (String a s). by rewrite Nat.add_0_r.
    + exists "", (String a s). by rewrite Nat.add_0_r.
Qed.

Lemma greedy_complete {R : Type} (p : charset) (k : nat → string → option R)
    (u v : string) : ∀ pos,
  all_in p u = true → is_Some (k (pos + String.length u) v) →
  is_Some (greedy p k pos (u +:+ v)).
Proof.
  induction u as [|a u IH]; intros pos Hu Hk.
  - rewrite str_app_nil_l. simpl in Hk. rewrite Nat.add_0_r in Hk.
    destruct v as [|b v]; simpl; [done|].
    destruct (p b); [|done].
    destruct (greedy p k (S pos) v); [by eexists | done].
  - rewrite str_app_cons. simpl in *.
    apply andb_true_iff in Hu as [-> Hu].
    rewrite Nat.add_succ_r in Hk.
    destruct (IH (S pos) Hu Hk) as [r ->]. by eexists.
Qed.

Lemma match_here_sound (ns : pattern) : ∀ m pos s e m',
  match_here ns m pos s = Some (e, m') →
  ∃ w rest, s = w +:+ rest ∧ accepts ns pos w ∧ e = pos + String.length w.
Proof.
  induction ns as [|n ns IH]; intros m pos s e m' H.
  - injection H as -> ->. exists "", s. by rewrite Nat.add_0_r.
  - destruct n as [p|[] p|g|g|]; simpl in H.
    + destruct s as [|a s]; [done|].
      destruct (p a) eqn:Hp; [|done].
      apply IH in H as (w & rest & -> & Hw & ->).
      exists (String a w), rest. simpl. split_and!; [done| |lia].
      by exists a, w.
    + destruct s as [|a s]; [done|].
      destruct (p a) eqn:Hp; [|done].
      apply greedy_sound in H as (u & v & -> & Hu & Hk).
      apply IH in Hk as (w & rest & -> & Hw & ->).
      exists (String a u +:+ w), rest. split_and!.
      * by rewrite !str_app_cons, str_app_assoc.
      * exists (String a u), w. simpl. rewrite Hp, Hu.
        split_and!; [done..|]. by rewrite Nat.add_succ_r.
      * rewrite str_length_app. simpl. lia.
    + apply greedy_sound in H as (u & v & -> & Hu & Hk).
      apply IH in Hk as (w & rest & -> & Hw & ->).
      exists (u +:+ w), rest. split_and!.
      * by rewrite str_app_assoc.
      * exists u, w. split_and!; done.
      * rewrite str_length_app. lia.
    + by apply IH in H.
    + by apply IH in H.
    + destruct (pos =? 0) eqn:Hpos; [|done].
      apply Nat.eqb_eq in Hpos.
      apply IH in H as (w & rest & -> & Hw & ->). by exists w, rest.
Qed.

Lemma match_here_complete (ns : pattern) : ∀ m pos w rest,
  accepts ns pos w → is_Some (match_here ns m pos (w +:+ rest)).
Proof.
  induction ns as [|n ns IH]; intros m pos w rest H.
  - by eexists.
  - destruct n as [p|b p|g|g|]; simpl in H |- *.
    + destruct H as (a & w' & -> & Hp & Hw).
      rewrite str_app_cons, Hp. by apply IH.
    + destruct H as (u & v & -> & Hu & Hne & Hv).
      rewrite str_app_assoc. destruct b.
      * destruct u as [|a u]; [by destruct Hne|].
        simpl in Hu. apply andb_true_iff in Hu as [Hp Hu].
        rewrite str_app_cons, Hp. apply greedy_complete; [done|].
        simpl in Hv. rewrite Nat.add_succ_r in Hv. by apply IH.
      * apply greedy_complete; [done|]. by apply IH.
    + by apply IH.
    + by apply IH.
    + destruct H as [-> Hw]. by apply IH.
Qed.

Lemma search_from_sound (ns : pattern) (whole s : string) : ∀ pos mo,
  search_from ns whole pos s = Some mo →
  ∃ pre w post, s = pre +:+ w +:+ post ∧ accepts ns (pos + String.length pre) w.
Proof.
  induction s as [|a s IH]; intros pos mo H; simpl in H.
  - destruct (match_here ns no_marks pos "") as [[e m]|] eqn:Hm; [|done].
    apply match_here_sound in Hm as (w & rest & Hs & Hw & _).
    exists "", w, rest. by rewrite Nat.add_0_r.
  - destruct (match_here ns no_marks pos (String a s)) as [[e m]|] eqn:Hm.
    + apply match_here_sound in Hm as (w & rest & Hs & Hw & _).
      exists "", w, rest. by rewrite Nat.add_0_r.
    + apply IH in H as (pre & w & post & -> & Hw).
      exists (String a pre), w, post. simpl.
      by rewrite Nat.add_succ_r.
Qed.

Lemma search_from_complete (ns : pattern) (whole pre w post : string) : ∀ pos,
  accepts ns (pos + String.length pre) w →
  is_Some (search_from ns whole pos (pre +:+ w +:+ post)).
Proof.
  induction pre as [|a pre IH]; intros pos Hw.
  - rewrite str_app_nil_l. simpl in Hw. rewrite Nat.add_0_r in Hw.
    destruct (match_here_complete ns no_marks pos w post Hw) as [[e m] Hm].
    destruct (w +:+ post); simpl; rewrite Hm; by eexists.
  - rewrite str_app_cons. simpl in Hw |- *.
    destruct (match_here ns no_marks pos _) as [[e m]|]; [by eexists|].
    apply IH. by rewrite Nat.add_succ_r in Hw.
Qed.

(** [re.search] returns a match exactly on the texts in which an accepted
    word occurs. *)
Lemma search_is_Some (ns : pattern) (s : string) :
  is_Some (search ns s) ↔ occurs ns s.
Proof.
  unfold search, occurs. split.
  - intros [mo H]. apply search_from_sound in H as (pre & w & post & ? & ?).
    by exists pre, w, post.
  - intros (pre & w & post & -> & Hw). by apply search_from_complete.
Qed.

Lemma search_None (ns : pattern) (s : string) :
  search ns s = None ↔ ¬ occurs ns s.
Proof.
  rewrite <-search_is_Some, <-eq_None_not_Some. done.
Qed.

Lemma lit_app (s t : string) : lit (s +:+ t) = lit s ++ lit t.
Proof.
  induction s as [|a s IH]; [done|]. rewrite str_app_cons. simpl. by rewrite IH.
Qed.

Lemma accepts_lit (t : string) (ns : pattern) : ∀ pos w,
  accepts (lit t ++ ns) pos w ↔
  ∃ w', w = t +:+ w' ∧ accepts ns (pos + String.length t) w'.
Proof.
  induction t as [|c t IH]; intros pos w; simpl.
  - rewrite Nat.add_0_r. split; [by exists w | by intros (w' & -> & ?)].
  - split.
    + intros (a & w' & -> & Ha & Hw). apply Ascii.eqb_eq in Ha as ->.
      apply IH in Hw as (w'' & -> & Hw). exists w''.
      by rewrite str_app_cons, Nat.add_succ_r.
    + intros (w' & -> & Hw). exists c, (t +:+ w'). split_and!; [done| |].
      * apply Ascii.eqb_refl.
      * apply IH. exists w'. by rewrite Nat.add_succ_r in Hw.
Qed.

Lemma accepts_star (p : charset) (ns : pattern) (pos : nat) (w : string) :
  accepts (MaxRepeat false p :: ns) pos w ↔
  ∃ u v, w = u +:+ v ∧ all_in p u = true ∧ accepts ns (pos + String.length u) v.
Proof.
  simpl. split.
  - intros (u & v & ? & ? & _ & ?). by exists u, v.
  - intros (u & v & ? & ? & ?). exists u, v. split_and!; done.
Qed.

(** The error texts in which [_get_table_columns] finds its
    table-not-found pattern. *)
Lemma search_table_not_found (full_table text : string) :
  is_Some (search (HiveDialect.table_not_found_regex full_table) text) ↔
  table_not_found_text full_table text.
Proof.
  rewrite search_is_Some. unfold occurs, table_not_found_text,
    HiveDialect.table_not_found_regex.
  split.
  - intros (pre & w & post & -> & Hw).
    apply accepts_lit in Hw as (w1 & -> & Hw).
    apply (accepts_star any) in Hw as (m1 & w2 & -> & Hm1 & Hw).
    apply accepts_lit in Hw as (w3 & -> & Hw).
    apply (accepts_star any) in Hw as (m2 & w4 & -> & Hm2 & Hw).
    apply accepts_lit in Hw as (w5 & -> & Hw).
    rewrite <-(List.app_nil_r (lit full_table)) in Hw.
    apply accepts_lit in Hw as (w6 & -> & ->).
    exists pre, m1, m2, post. split; [|done].
    by rewrite str_app_nil_r, !str_app_assoc.
  - intros (pre & m1 & m2 & post & -> & Hm1 & Hm2).
    exists pre, ("TExecuteStatementResp" +:+ m1 +:+ "SemanticException"
                 +:+ m2 +:+ "Table not found " +:+ full_table), post.
    split; [by rewrite !str_app_assoc|].
    apply accepts_lit. eexists; split; [done|].
    apply (accepts_star any). exists m1; eexists; split_and!; [done..|].
    apply accepts_lit. eexists; split; [done|].
    apply (accepts_star any). exists m2; eexists; split_and!; [done..|].
    apply accepts_lit. eexists; split; [done|].
    rewrite <-(List.app_nil_r (lit full_table)).
    apply accepts_lit. exists "". by rewrite str_app_nil_r.
Qed.

End MatcherFacts.

(** ** The statement compiler *)

Section CompilerFacts.
Import Re HiveCompiler.

(** C2. INSERT rewriting: the plain form and the partitioned form of the
    rendered text become the [INSERT INTO TABLE] forms, and a text in
    which neither pattern is found raises the assertion failure instead
    of returning text. *)
Theorem visit_insert_rewrites :
  visit_insert "INSERT INTO db.tbl (a, b) SELECT 1, 2"
    = Ok "INSERT INTO TABLE db.tbl SELECT 1, 2"
  ∧ visit_insert "INSERT INTO db.tbl PARTITION (p=1) (a) SELECT 1"
    = Ok "INSERT INTO TABLE db.tbl PARTITION (p=1) SELECT 1"
  ∧ ∀ result : string,
      search insert_regex result = None →
      search insert_partition_regex result = None →
      visit_insert result
        = Raise (AssertionError ("Unexpected visit_insert result: " +:+ result)).
Proof.
  split_and!.
  - vm_compute. reflexivity.
  - vm_compute. reflexivity.
  - intros result H1 H2. unfold visit_insert. by rewrite H1, H2.
Qed.

Lemma visit_insert_rewrites_witness :
  visit_insert "SELECT 1"
    = Raise (AssertionError "Unexpected visit_insert result: SELECT 1").
Proof.
  apply (proj2 (proj2 visit_insert_rewrites) "SELECT 1"); reflexivity.
Defined.

(** X5. [visit_insert] returns text exactly when a word of one of the two
    patterns occurs in the rendered text. *)
Lemma visit_insert_Ok_iff (result : string) :
  (∃ text, visit_insert result = Ok text) ↔
  ReSpec.occurs insert_regex result ∨
  ReSpec.occurs insert_partition_regex result.
Proof.
  rewrite <-!search_is_Some. unfold visit_insert.
  destruct (search insert_regex result) as [m1|].
  { split; [intros _; left; by eexists | intros _; by eexists]. }
  destruct (search insert_partition_regex result) as [m2|].
  { split; [intros _; right; by eexists | intros _; by eexists]. }
  split; [by intros [? ?] | by intros [[? ?]|[? ?]]].
Qed.

Lemma str_count_app (c : ascii) (s t : string) :
  Str.count c (s +:+ t) = Str.count c s + Str.count c t.
Proof.
  induction s as [|a s IH]; [done|].
  rewrite str_app_cons. simpl. rewrite IH. lia.
Qed.

Lemma str_index_no_dot (schema rest : string) :
  Str.count "."%char schema = 0 →
  Str.index "."%char (schema +:+ "." +:+ rest) = Some (String.length schema).
Proof.
  induction schema as [|a s IH]; [done|].
  rewrite str_app_cons. simpl.
  destruct (Ascii.eqb a ".") eqn:E; [done|]. intros H.
  by rewrite IH.
Qed.

Lemma str_drop_app (s t : string) : Str.drop (String.length s) (s +:+ t) = t.
Proof. induction s as [|a s IH]; [by destruct t|]. by rewrite str_app_cons. Qed.

(** X6. The schema segment, up to the first separator, is what
    [visit_column] removes from a reference with two separators. *)
Lemma visit_column_strips_schema (schema rest : string) :
  Str.count "."%char schema = 0 → Str.count "."%char rest = 1 →
  visit_column (schema +:+ "." +:+ rest) = Ok rest.
Proof.
  intros Hs Hr. unfold visit_column.
  rewrite !str_count_app, Hs, Hr. simpl.
  rewrite str_index_no_dot by done.
  rewrite Nat.add_1_r.
  replace (S (String.length schema)) with (String.length (schema +:+ "."))
    by (rewrite str_length_app; simpl; lia).
  by rewrite <-str_app_assoc, str_drop_app.
Qed.

Lemma visit_column_unqualified (result : string) :
  Str.count "."%char result ≤ 1 → visit_column result = Ok result.
Proof.
  intros H. unfold visit_column.
  destruct (Str.count "."%char result) as [|[|n]]; [done..|lia].
Qed.

(** C6. Column reference rewriting: [s.t.c] becomes [t.c], [t.c] and [c]
    are returned unchanged, and a rendered reference with more than two
    separators raises the assertion failure. *)
Theorem visit_column_rewrites :
  visit_column "s.t.c" = Ok "t.c"
  ∧ visit_column "t.c" = Ok "t.c"
  ∧ visit_column "c" = Ok "c"
  ∧ ∀ result : string,
      2 < Str.count "."%char result →
      visit_column result
        = Raise (AssertionError ("Unexpected visit_column result " +:+ result)).
Proof.
  split_and!; [done..|].
  intros result H. unfold visit_column.
  destruct (Str.count "."%char result) as [|[|[|n]]]; [lia..|done].
Qed.

Lemma visit_column_rewrites_witness :
  visit_column "a.s.t.c"
    = Raise (AssertionError "Unexpected visit_column result a.s.t.c").
Proof.
  apply (proj2 (proj2 (proj2 visit_column_rewrites)) "a.s.t.c").
  vm_compute. lia.
Defined.

End CompilerFacts.

(** ** The type classes *)

Section TypeFacts.

(** An [item_type] that is a [HiveArray] instance makes the constructor
    raise [ValueError]; the constructor takes no connection, so nothing
    has been executed when it raises. *)
Theorem HiveArray_init_rejects_array (item_type : type_argument)
    (dimensions : option Z) (zero_indexes : bool) :
  isinstance_HiveArray item_type = true →
  HiveArray_init item_type dimensions zero_indexes
    = Raise (ValueError
        "Do not nest ARRAY types; ARRAY(basetype) handles multi-dimensional arrays of basetype").
Proof. intros H. unfold HiveArray_init. by rewrite H. Qed.

Lemma HiveArray_init_rejects_array_witness :
  HiveArray_init (HiveArrayInstance (Instance types_Integer) None false)
    (Some 2%Z) false
    = Raise (ValueError
        "Do not nest ARRAY types; ARRAY(basetype) handles multi-dimensional arrays of basetype").
Proof. apply HiveArray_init_rejects_array. reflexivity. Defined.

(** The constructor raises [ValueError] only for such an argument. *)
Lemma HiveArray_init_ValueError (item_type : type_argument)
    (dimensions : option Z) (zero_indexes : bool) (msg : string) :
  HiveArray_init item_type dimensions zero_indexes = Raise (ValueError msg) →
  isinstance_HiveArray item_type = true.
Proof.
  unfold HiveArray_init.
  destruct (isinstance_HiveArray item_type); [done|].
  destruct item_type as [c|c|t d z|s]; cbv [mbind outcome_bind instantiate].
  - destruct c; discriminate.
  - discriminate.
  - discriminate.
  - destruct (_type_map !! s); discriminate.
Qed.

(** Arguments that are not [HiveArray] instances take the later branches:
    the class [HiveArray] cannot be called without arguments, and a name
    is replaced by the class the registry holds for it, without a second
    look at what that class is. *)
Example HiveArray_init_class_HiveArray :
  HiveArray_init (Class_ HiveArray) None false = Raise TypeError.
Proof. reflexivity. Qed.

Example HiveArray_init_name_array :
  HiveArray_init (Name "array") None false
    = Ok (HiveArrayInstance (Class_ HiveArray) None false).
Proof. vm_compute. reflexivity. Qed.

(** C4, at the failing input.  The registry holds the class [HiveArray]
    for the name [array], and the constructor tests for a nested array
    before it resolves a name: with the item type [array] it raises
    nothing and returns an array whose item type is the array class,
    whatever the dimensions and the index base.  An item type that is an
    array instance is refused with [ValueError], as the docstring and the
    message of that error ask for every nesting, and the array class
    itself is refused with the [TypeError] of its call without
    arguments. *)
Theorem HiveArray_init_array_name_nests (dimensions : option Z)
    (zero_indexes : bool) :
  _type_map !! "array" = Some HiveArray
  ∧ HiveArray_init (Name "array") dimensions zero_indexes
    = Ok (HiveArrayInstance (Class_ HiveArray) dimensions zero_indexes)
  ∧ HiveArray_init (Class_ HiveArray) dimensions zero_indexes = Raise TypeError
  ∧ ∀ (item_type : type_argument) (d : option Z) (z : bool),
      HiveArray_init (HiveArrayInstance item_type d z) dimensions zero_indexes
      = Raise (ValueError
          "Do not nest ARRAY types; ARRAY(basetype) handles multi-dimensional arrays of basetype").
Proof.
  split_and!.
  - vm_compute. reflexivity.
  - vm_compute. reflexivity.
  - reflexivity.
  - intros item_type d z. reflexivity.
Qed.

(** A registered class is instantiated and accepted as the item type. *)
Example HiveArray_init_Integer :
  HiveArray_init (Class_ types_Integer) (Some 2%Z) false
    = Ok (HiveArrayInstance (Instance types_Integer) (Some 2%Z) false).
Proof. reflexivity. Qed.

(** [process_bind_param] is found in [HiveStringTypeBase] for the three
    string-backed types: none of them has a body of its own for it. *)
Lemma resolve_process_bind_param (c : type_class) :
  c ∈ [HiveDate; HiveTimestamp; HiveDecimal] →
  resolve c process_bind_param_ = Some HiveStringTypeBase.
Proof.
  intros H. repeat (apply elem_of_cons in H as [->|H]; [done|]).
  by apply elem_of_nil in H.
Qed.

(** C5. Binding a value of a [HiveDate], [HiveTimestamp] or [HiveDecimal]
    raises [NotImplementedError], whatever the value and the dialect. *)
Theorem process_bind_param_unsupported (c : type_class) (value : py_value)
    (d : dialect) :
  c ∈ [HiveDate; HiveTimestamp; HiveDecimal] →
  process_bind_param c value d
    = Raise (NotImplementedError "Writing to Hive not supported").
Proof.
  intros H. unfold process_bind_param.
  by rewrite (resolve_process_bind_param c H).
Qed.

Lemma process_bind_param_unsupported_witness :
  process_bind_param HiveDecimal (PyDecimal "10.1") HiveDialect_
    = Raise (NotImplementedError "Writing to Hive not supported").
Proof.
  apply process_bind_param_unsupported.
  apply elem_of_cons; right. apply elem_of_cons; right.
  apply elem_of_cons; left. reflexivity.
Defined.

End TypeFacts.

(** ** The DDL compiler *)

Section DDLFacts.
Import HiveDDLCompiler DDLSpec.

Lemma str_compare_refl (s : string) : String.compare s s = Eq.
Proof.
  pose proof (String.compare_antisym s s) as H.
  destruct (String.compare s s); done.
Qed.

Lemma str_ltb_false_iff (s t : string) :
  String.ltb s t = false ↔ (t ≤ s)%string.
Proof.
  unfold String.le, String.leb, String.ltb.
  rewrite (String.compare_antisym s t).
  destruct (String.compare t s); simpl; split; done.
Qed.

Lemma tuple_lt_false (x y : string * string) :
  tuple_lt y x = false ↔ tuple_le x y.
Proof.
  unfold tuple_lt, tuple_le.
  destruct (String.eqb_spec y.1 x.1) as [E1|N1].
  - destruct (String.eqb_spec y.2 x.2) as [E2|N2].
    + split; [intros _|done]. right. split; [done|]. by rewrite E2.
    + rewrite str_ltb_false_iff. split; [by right|].
      intros [[_ N]|[_ H]]; [by destruct N | done].
  - rewrite str_ltb_false_iff. split.
    + intros H. left. split; [done | congruence].
    + intros [[H _]|[E _]]; [done | by destruct N1].
Qed.

#[local] Instance tuple_le_trans : Transitive tuple_le.
Proof.
  intros x y z [[H1 N1]|[E1 H1]] [[H2 N2]|[E2 H2]].
  - left. split; [by etrans|]. intros E. rewrite <-E in H2.
    by apply N1, (anti_symm String.le).
  - left. by rewrite <-E2.
  - left. by rewrite E1.
  - right. split; [congruence | by etrans].
Qed.

#[local] Instance tuple_le_anti_symm : AntiSymm (=) tuple_le.
Proof.
  intros [k1 v1] [k2 v2] [[H1 N1]|[E1 H1]] [[H2 N2]|[E2 H2]];
    simpl in *; try done.
  - destruct N1. by apply (anti_symm String.le).
  - subst. f_equal. by apply (anti_symm String.le).
Qed.

#[local] Instance tuple_le_total : Total tuple_le.
Proof.
  intros x y. unfold tuple_le.
  destruct (decide (x.1 = y.1)) as [E|N].
  - destruct (total String.le x.2 y.2); [left | right]; by right.
  - destruct (total String.le x.1 y.1); [left | right]; left; split;
      done || congruence.
Qed.

Lemma tuple_lt_true (x y : string * string) :
  tuple_lt y x = true → tuple_le y x.
Proof.
  intros H. destruct (total tuple_le y x) as [|H']; [done|].
  apply tuple_lt_false in H'. congruence.
Qed.

Lemma insert_Permutation (x : string * string) (l : list (string * string)) :
  insert x l ≡ₚ x :: l.
Proof.
  induction l as [|y l IH]; simpl; [done|].
  destruct (tuple_lt y x); [|done].
  rewrite IH. apply Permutation_swap.
Qed.

Lemma sorted_Permutation (l : list (string * string)) : sorted l ≡ₚ l.
Proof.
  induction l as [|x l IH]; simpl; [done|].
  by rewrite insert_Permutation, IH.
Qed.

Lemma insert_StronglySorted (x : string * string) (l : list (string * string)) :
  StronglySorted tuple_le l → StronglySorted tuple_le (insert x l).
Proof.
  induction 1 as [|y l Hl IH Hy]; simpl.
  - by repeat constructor.
  - destruct (tuple_lt y x) eqn:E.
    + constructor; [done|].
      rewrite insert_Permutation. constructor; [|done].
      by apply tuple_lt_true.
    + apply tuple_lt_false in E.
      constructor; [by constructor|].
      constructor; [done|].
      eapply Forall_impl; [done|]. intros z Hz. by etrans.
Qed.

Lemma sorted_StronglySorted (l : list (string * string)) :
  StronglySorted tuple_le (sorted l).
Proof.
  induction l as [|x l IH]; simpl; [constructor|].
  by apply insert_StronglySorted.
Qed.

Lemma tuple_le_key (x y : string * string) :
  tuple_le x y → (x.1 ≤ y.1)%string.
Proof. intros [[H _]|[-> _]]; done. Qed.

(** C8. The table-properties clause of [{"b": "2", "a": "1"}] is
    [TBLPROPERTIES ('a' = '1', 'b' = '2')].  For every mapping, whatever
    the other options of the table, the pairs emitted are the pairs of a
    list of the mapping's items arranged in ascending key order (values
    deciding between equal keys), the clause emitted by [table_opts] is
    the last option and joins exactly these pairs in this order, and
    [post_create_table] ends with it.  Two mappings with the same items in
    different insertion orders emit the same pairs. *)
Theorem table_properties_sorted :
  table_opts (Table None None None None (Some [("b", "2"); ("a", "1")]))
    = ["TBLPROPERTIES ('a' = '1', 'b' = '2')"]
  ∧ (∀ (items : list (string * string))
       (c by_ cl st : option string),
       ∃ (l : list (string * string)) (before : list string),
         l ≡ₚ items
         ∧ StronglySorted String.le l.*1
         ∧ StronglySorted tuple_le l
         ∧ table_properties items
           = (λ kv, "'" +:+ kv.1 +:+ "' = '" +:+ kv.2 +:+ "'") <$> l
         ∧ table_opts (Table c by_ cl st (Some items))
           = before ++
             ["TBLPROPERTIES (" +:+
              Str.join ", "
                ((λ kv, "'" +:+ kv.1 +:+ "' = '" +:+ kv.2 +:+ "'") <$> l)
              +:+ ")"]
         ∧ post_create_table (Table c by_ cl st (Some items))
           = newline +:+ Str.join newline
               (before ++
                ["TBLPROPERTIES (" +:+
                 Str.join ", "
                   ((λ kv, "'" +:+ kv.1 +:+ "' = '" +:+ kv.2 +:+ "'") <$> l)
                 +:+ ")"]))
  ∧ (∀ items1 items2 : list (string * string),
       items1 ≡ₚ items2 → table_properties items1 = table_properties items2).
Proof.
  split_and!.
  - vm_compute. reflexivity.
  - intros items c by_ cl st.
    exists (sorted items),
      ((match c with
        | Some c => if Str.truthy c then ["COMMENT '" +:+ c +:+ "'"] else []
        | None => []
        end) ++
       (match by_ with Some v => ["PARTITIONED BY " +:+ v] | None => [] end) ++
       (match cl with Some v => ["CLUSTERED BY " +:+ v] | None => [] end) ++
       (match st with Some v => ["STORED AS " +:+ v] | None => [] end)).
    split_and!.
    + apply sorted_Permutation.
    + eapply StronglySorted_fmap; [|apply sorted_StronglySorted].
      apply tuple_le_key.
    + apply sorted_StronglySorted.
    + reflexivity.
    + unfold table_opts, table_properties. cbn [comment hive_partitioned_by
        hive_clustered_by hive_stored_as hive_table_properties].
      by rewrite <-!app_assoc.
    + unfold post_create_table, table_opts, table_properties.
      cbn [comment hive_partitioned_by hive_clustered_by hive_stored_as
           hive_table_properties].
      by rewrite <-!app_assoc.
  - intros items1 items2 H. unfold table_properties. f_equal.
    apply (StronglySorted_unique tuple_le); [apply sorted_StronglySorted..|].
    by rewrite !sorted_Permutation.
Qed.

Lemma table_properties_sorted_witness :
  table_properties [("b", "2"); ("a", "1")]
    = table_properties [("a", "1"); ("b", "2")].
Proof.
  apply (proj2 (proj2 table_properties_sorted)). apply perm_swap.
Defined.

(** The sorted list is the only arrangement of the items in that order,
    so the pairs emitted are determined by the items alone. *)
Lemma table_properties_order_unique (items l : list (string * string)) :
  l ≡ₚ items → StronglySorted tuple_le l →
  table_properties items
  = (λ kv, "'" +:+ kv.1 +:+ "' = '" +:+ kv.2 +:+ "'") <$> l.
Proof.
  intros Hp Hs. unfold table_properties. f_equal.
  apply (StronglySorted_unique tuple_le);
    [apply sorted_StronglySorted | done |].
  by rewrite sorted_Permutation, Hp.
Qed.

(** The options are emitted in the fixed order of the generator. *)
Example post_create_table_all :
  post_create_table
    (Table (Some "t") (Some "(d STRING)") (Some "(a) INTO 4 BUCKETS")
       (Some "ORC") (Some [("b", "2"); ("a", "1")]))
  = newline +:+ "COMMENT 't'" +:+ newline +:+ "PARTITIONED BY (d STRING)"
    +:+ newline +:+ "CLUSTERED BY (a) INTO 4 BUCKETS"
    +:+ newline +:+ "STORED AS ORC"
    +:+ newline +:+ "TBLPROPERTIES ('a' = '1', 'b' = '2')".
Proof. vm_compute. reflexivity. Qed.

End DDLFacts.

(** ** The dialect *)

Section DialectFacts.
Import Re ReSpec HiveDialect.
Context {connection : Type}.
Variable execute : string → connection → outcome (list row) * connection.
Variable quote_identifier : string → string.

(** C1. On the described rows, [get_columns] returns the descriptors of
    [a] (Integer) and [b] (the array class, whose item type is then
    Integer), in that order, and [get_indexes] returns the partition
    index over the column names [["p"]]. *)
Theorem describe_example (conn conn' : connection) (table_name : string)
    (schema : option string) (rt : runtime) :
  execute ("DESCRIBE " +:+ full_table_name table_name schema) conn
    = (Ok [[Some "a"; Some "int"; None];
           [Some "b"; Some "array<int>"; None];
           [Some "# Partition Information"; None; None];
           [Some ""; Some ""; None];
           [Some "p"; Some "string"; None]], conn') →
  get_columns execute conn table_name schema rt
    = (Ok [Column (Some "a") types_Integer true None None;
           Column (Some "b") HiveArray true None None],
       conn', set_item_type HiveArray types_Integer rt)
  ∧ item_type_attr (set_item_type HiveArray types_Integer rt) !! HiveArray
    = Some types_Integer
  ∧ get_indexes execute conn table_name schema
    = (Ok [Index "partition" [Some "p"] false], conn').
Proof.
  intros H. unfold get_columns, get_indexes, _get_table_columns.
  rewrite H. split_and!.
  - vm_compute. reflexivity.
  - apply lookup_insert_eq.
  - vm_compute. reflexivity.
Qed.

(** C3, as the code has it.  When the statement raises an
    [OperationalError], [has_table] returns [False] exactly for the texts
    that carry [TExecuteStatementResp], [SemanticException] and
    [Table not found <table>] in this order on one line; for every other
    text the same error reaches the caller. *)
Theorem has_table_on_operational_error (conn conn' : connection)
    (table_name : string) (schema : option string) (text : string) :
  execute ("DESCRIBE " +:+ full_table_name table_name schema) conn
    = (Raise (OperationalError text), conn') →
  (table_not_found_text (full_table_name table_name schema) text →
     has_table execute conn table_name schema = (Ok false, conn'))
  ∧ (¬ table_not_found_text (full_table_name table_name schema) text →
     has_table execute conn table_name schema
       = (Raise (OperationalError text), conn')).
Proof.
  intros H. unfold has_table, _get_table_columns. rewrite H.
  split; intros Ht.
  - apply search_table_not_found in Ht as [mo ->]. done.
  - rewrite <-search_table_not_found, <-eq_None_not_Some in Ht.
    by rewrite Ht.
Qed.

(** A row whose type token is unknown and whose type text is not an
    array text yields the [NullType] descriptor and one warning, and the
    loop goes on with the remaining rows. *)
Lemma columns_loop_unknown_type (col_name _comment : option string)
    (col_type : string) (m : match_object) (rows : list row)
    (result : list column) (rt : runtime) :
  col_name ≠ Some partition_marker →
  search type_name_regex col_type = Some m →
  _type_map !! default "" (group m 0) = None →
  search array_regex col_type = None →
  columns_loop ([col_name; Some col_type; _comment] :: rows) result rt
    = columns_loop rows
        (result ++ [Column col_name types_NullType true None _comment])
        (warn ("Did not recognize type '" +:+ col_type +:+ "' of column '"
               +:+ percent_s col_name +:+ "'") rt).
Proof.
  intros Hn Hm Ht Ha.
  cbn [columns_loop]. rewrite bool_decide_false by done.
  by rewrite Hm, Ht, Ha.
Qed.

(** C7, at the failing input.  The type token [ARRAY] of the first row
    is not in the registry; the row is given [NullType] and a warning,
    but then the item name [INT] of its array text is looked up without
    a fallback, and [get_columns] raises [KeyError] instead of going on
    to the second row. *)
Theorem get_columns_unknown_token_aborts (conn conn' : connection)
    (table_name : string) (schema : option string) (rt : runtime) :
  execute ("DESCRIBE " +:+ full_table_name table_name schema) conn
    = (Ok [[Some "x"; Some "ARRAY<INT>"; None];
           [Some "y"; Some "int"; None]], conn') →
  (m ← search type_name_regex "ARRAY<INT>"; group m 0) = Some "ARRAY"
  ∧ _type_map !! "ARRAY" = None
  ∧ get_columns execute conn table_name schema rt
    = (Raise (KeyError "INT"), conn',
       warn "Did not recognize type 'ARRAY<INT>' of column 'x'" rt).
Proof.
  intros H. unfold get_columns, _get_table_columns. rewrite H.
  split_and!; vm_compute; reflexivity.
Qed.




(** C10. [get_view_names] returns what [get_table_names] returns on the
    same connection and schema: the same names, or the same error, and
    the same connection state. *)
Theorem get_view_names_is_get_table_names (conn : connection)
    (schema : option string) :
  get_view_names execute quote_identifier conn schema
    = get_table_names execute quote_identifier conn schema.
Proof. reflexivity. Qed.

End DialectFacts.

(** ** The dialect on scripted connections *)

Section ScriptedFacts.
Import Re ReSpec HiveDialect.

Lemma describe_example_witness :
  get_indexes
    (Scripted.execute
       [("DESCRIBE db.tbl",
         Ok [[Some "a"; Some "int"; None];
             [Some "b"; Some "array<int>"; None];
             [Some "# Partition Information"; None; None];
             [Some ""; Some ""; None];
             [Some "p"; Some "string"; None]])])
    0 "tbl" (Some "db")
  = (Ok [Index "partition" [Some "p"] false], 1).
Proof.
  eapply (describe_example _ 0 1 "tbl" (Some "db") (Runtime ∅ [])).
  reflexivity.
Defined.

(** C3, as stated, fails: an error text that contains
    [SemanticException ... Table not found mytable] but not the response
    name before it is not taken for a missing table, and [has_table]
    raises the error. *)
Lemma has_table_signature_alone_raises :
  contains_signature "mytable"
    "SemanticException [Error 10001]: Line 1:14 Table not found mytable"
  ∧ has_table
      (Scripted.execute
         [("DESCRIBE mytable",
           Raise (OperationalError
             "SemanticException [Error 10001]: Line 1:14 Table not found mytable"))])
      0 "mytable" None
    = (Raise (OperationalError
         "SemanticException [Error 10001]: Line 1:14 Table not found mytable"), 1).
Proof.
  split.
  - exists "", " [Error 10001]: Line 1:14 ", "". reflexivity.
  - vm_compute. reflexivity.
Qed.

Lemma has_table_on_operational_error_witness :
  has_table
    (Scripted.execute
       [("DESCRIBE mytable",
         Raise (OperationalError
           "TExecuteStatementResp(errorMessage='SemanticException [Error 10001]: Table not found mytable')"))])
    0 "mytable" None
  = (Ok false, 1).
Proof.
  eapply (proj1 (has_table_on_operational_error _ 0 1 "mytable" None _ _)).
  exists "", "(errorMessage='", " [Error 10001]: ", "')".
  split_and!; reflexivity.
  Unshelve. reflexivity.
Defined.

Lemma get_columns_unknown_token_aborts_witness :
  get_columns
    (Scripted.execute
       [("DESCRIBE t",
         Ok [[Some "x"; Some "ARRAY<INT>"; None];
             [Some "y"; Some "int"; None]])])
    0 "t" None (Runtime ∅ [])
  = (Raise (KeyError "INT"), 1,
     Runtime ∅ ["Did not recognize type 'ARRAY<INT>' of column 'x'"]).
Proof.
  eapply (proj2 (proj2
    (get_columns_unknown_token_aborts _ 0 1 "t" None (Runtime ∅ []) _))).
  Unshelve. reflexivity.
Defined.


(** On a schema, both list the tables of [SHOW TABLES IN] the quoted
    schema. *)
Example get_view_names_scripted :
  get_view_names
    (Scripted.execute [("SHOW TABLES IN `db`", Ok [[Some "t1"]; [Some "t2"]])])
    Scripted.quote_identifier 0 (Some "db")
  = (Ok [Some "t1"; Some "t2"], 1).
Proof. vm_compute. reflexivity. Qed.

End ScriptedFacts.

(** ** The execution context *)

Section ExecutionContextFacts.
Import StrSplit HiveExecutionContext.

Lemma contains_count (c : ascii) (s : string) :
  contains c s = true ↔ Str.count c s ≠ 0.
Proof.
  induction s as [|a s IH]; simpl; [done|].
  destruct (Ascii.eqb a c); simpl; [split; [lia|done] | done].
Qed.

Lemma split_length (c : ascii) (s : string) :
  length (split c s) = S (Str.count c s).
Proof.
  induction s as [|a s IH]; simpl; [done|].
  destruct (Ascii.eqb a c); simpl; [by rewrite IH|].
  destruct (split c s); simpl in *; lia.
Qed.

Lemma split_no_separator (c : ascii) (s : string) :
  Str.count c s = 0 → split c s = [s].
Proof.
  induction s as [|a s IH]; simpl; [done|].
  destruct (Ascii.eqb a c); simpl; [done|].
  intros H. by rewrite IH.
Qed.

(** Joining the pieces with the separator gives the text back. *)
Lemma join_split (c : ascii) (s : string) :
  Str.join (String c EmptyString) (split c s) = s.
Proof.
  induction s as [|a s IH]; simpl; [done|].
  pose proof (split_length c s) as Hl.
  destruct (Ascii.eqb_spec a c) as [->|Hne].
  - destruct (split c s) as [|x l]; [done|].
    change (Str.join (String c "") ("" :: x :: l))
      with ("" +:+ String c "" +:+ Str.join (String c "") (x :: l)).
    by rewrite IH.
  - destruct (split c s) as [|x l]; [done|].
    destruct l as [|y l].
    + simpl in *. by rewrite IH.
    + change (Str.join (String c "") (String a x :: y :: l))
        with (String a (x +:+ String c "" +:+ Str.join (String c "") (y :: l))).
      by rewrite <-IH.
Qed.

Lemma last_split_count (c : ascii) (s : string) :
  Str.count c (List.last (split c s) "") = 0.
Proof.
  induction s as [|a s IH]; simpl; [done|].
  pose proof (split_length c s) as Hl.
  destruct (Ascii.eqb a c) eqn:E.
  - destruct (split c s) as [|x l]; [done|]. exact IH.
  - destruct (split c s) as [|x l]; [done|].
    destruct l as [|y l]; [|exact IH].
    simpl in *. by rewrite E.
Qed.

Lemma last_split_suffix (c : ascii) (s : string) :
  Str.count c s ≠ 0 →
  ∃ prefix, s = prefix +:+ String c "" +:+ List.last (split c s) "".
Proof.
  induction s as [|a s IH]; simpl; [done|].
  pose proof (split_length c s) as Hl.
  destruct (Ascii.eqb_spec a c) as [->|Hne]; simpl; intros Hc.
  - destruct (decide (Str.count c s = 0)) as [Hz|Hnz].
    + exists "". rewrite (split_no_separator c s Hz). done.
    + destruct (IH Hnz) as [p Hp]. exists (String c p).
      destruct (split c s) as [|x l]; [done|].
      rewrite str_app_cons. by rewrite <-Hp.
  - destruct (IH Hc) as [p Hp]. exists (String a p).
    destruct (split c s) as [|x l]; [done|].
    destruct l as [|y l]; [simpl in Hl; lia|].
    change (List.last (String a x :: y :: l) "")
      with (List.last (x :: y :: l) "").
    rewrite str_app_cons. by rewrite <-Hp.
Qed.

(** X1. Unless raw column names are kept, a dotted column name is
    translated to its last segment: the segment has no dot, the name ends
    with a dot and that segment, and the original name is returned beside
    it. *)
Theorem translate_colname_last_segment (execution_options : gmap string bool)
    (colname : string) :
  _preserve_raw_colnames execution_options = false →
  contains "."%char colname = true →
  ∃ prefix name,
    _translate_colname execution_options colname = (name, Some colname)
    ∧ colname = prefix +:+ "." +:+ name
    ∧ Str.count "."%char name = 0.
Proof.
  intros Hp Hc. unfold _translate_colname. rewrite Hp, Hc. simpl.
  apply contains_count in Hc.
  destruct (last_split_suffix "."%char colname Hc) as [prefix Hs].
  exists prefix, (List.last (split "."%char colname) "").
  split_and!; [done | exact Hs | apply last_split_count].
Qed.

Lemma translate_colname_last_segment_witness :
  ∃ prefix name,
    _translate_colname ∅ "test_table.a" = (name, Some "test_table.a")
    ∧ "test_table.a" = prefix +:+ "." +:+ name
    ∧ Str.count "."%char name = 0.
Proof.
  apply translate_colname_last_segment; reflexivity.
Defined.

(** X2. Translating a translated name changes nothing: the name that
    [_translate_colname] returns is returned as it is, with no original
    beside it, whatever the options. *)
Theorem translate_colname_idempotent (execution_options : gmap string bool)
    (colname : string) :
  _translate_colname execution_options
    (_translate_colname execution_options colname).1
  = ((_translate_colname execution_options colname).1, None).
Proof.
  unfold _translate_colname.
  destruct (_preserve_raw_colnames execution_options); simpl; [done|].
  destruct (contains "."%char colname) eqn:Hc; simpl.
  - pose proof (last_split_count "."%char colname) as Hz.
    destruct (contains "."%char (List.last (split "."%char colname) "")) eqn:Hc';
      [|done].
    apply contains_count in Hc'. done.
  - by rewrite Hc.
Qed.

End ExecutionContextFacts.

(** ** The statement compiler, in general *)

Section RewritingFacts.
Import Re ReSpec HiveCompiler IntrospectionSpec.

Lemma greedy_max {R : Type} (p : charset) (k : nat → string → option R)
    (u v : string) (r : R) : ∀ pos,
  all_in p u = true →
  (∀ a v', v = String a v' → p a = false) →
  k (pos + String.length u) v = Some r →
  greedy p k pos (u +:+ v) = Some r.
Proof.
  induction u as [|a u IH]; intros pos Hu Hv Hk.
  - rewrite str_app_nil_l. simpl in Hk. rewrite Nat.add_0_r in Hk.
    destruct v as [|b v]; simpl; [done|].
    by rewrite (Hv b v eq_refl).
  - rewrite str_app_cons. simpl in *.
    apply andb_true_iff in Hu as [-> Hu].
    rewrite Nat.add_succ_r in Hk.
    by rewrite (IH (S pos) Hu Hv Hk).
Qed.

Lemma match_here_lit (t : string) (ns : pattern) (m : marks) (s : string) :
  ∀ pos, match_here (lit t ++ ns) m pos (t +:+ s)
         = match_here ns m (pos + String.length t) s.
Proof.
  induction t as [|c t IH]; intros pos.
  - simpl. by rewrite Nat.add_0_r.
  - change (String c t +:+ s) with (String c (t +:+ s)).
    simpl. unfold literal at 1. rewrite Ascii.eqb_refl.
    rewrite IH. by rewrite Nat.add_succ_r.
Qed.

Lemma match_insert_regex (target cols rest : string) :
  target ≠ "" →
  all_in (negate space) target = true →
  all_in (negate (literal ")"%char)) cols = true →
  match_here insert_regex no_marks 0
    ("INSERT INTO " +:+ target +:+ " (" +:+ cols +:+ ")" +:+ rest)
  = Some (15 + String.length target + String.length cols,
          Marks [(2, 12); (1, 0)]
                [(2, (12, 12 + String.length target)); (1, (0, 11))]).
Proof.
  intros Hne Ht Hc. unfold insert_regex.
  change ([GroupOpen 1] ++ ?x) with (GroupOpen 1 :: x).
  cbn [match_here].
  change ("INSERT INTO " +:+ ?x) with ("INSERT INTO" +:+ " " +:+ x).
  rewrite match_here_lit.
  change ([GroupClose 1] ++ ?x) with (GroupClose 1 :: x).
  cbn [match_here].
  rewrite match_here_lit.
  change ([GroupOpen 2; ?a; ?b] ++ ?x) with (GroupOpen 2 :: a :: b :: x).
  cbn [match_here].
  destruct target as [|a target]; [done|].
  simpl in Ht. apply andb_true_iff in Ht as [Ha Ht].
  rewrite str_app_cons, Ha.
  apply greedy_max; [done | by intros ?? [= <- _] |].
  cbn [match_here].
  rewrite match_here_lit.
  change ([MaxRepeat false ?p] ++ ?x) with (MaxRepeat false p :: x).
  cbn [match_here].
  apply greedy_max; [done | by intros ?? [= <- _] |].
  rewrite <-(List.app_nil_r (lit ")")).
  change (")" +:+ rest) with (")" +:+ rest).
  rewrite match_here_lit.
  cbn [match_here].
  f_equal. f_equal. simpl. lia.
Qed.

Lemma accepts_anchor_free (ns : pattern) : ∀ pos pos' w,
  anchor_free ns = true → accepts ns pos w → accepts ns pos' w.
Proof.
  induction ns as [|n ns IH]; intros pos pos' w Hf H; [done|].
  destruct n as [p|b p|g|g|]; simpl in *; [| | eauto | eauto | done].
  - destruct H as (a & w' & -> & Hp & Hw). exists a, w'. eauto.
  - destruct H as (u & v & -> & Hu & Hb & Hv). exists u, v. eauto 6.
Qed.

Lemma occurs_cons (ns : pattern) (a : ascii) (s : string) :
  anchor_free ns = true → occurs ns s → occurs ns (String a s).
Proof.
  intros Hf (pre & w & post & -> & Hw).
  exists (String a pre), w, post. split; [done|].
  by eapply accepts_anchor_free.
Qed.

Lemma search_from_hit (ns : pattern) (whole s : string) (pos e : nat) (m : marks) :
  match_here ns no_marks pos s = Some (e, m) →
  search_from ns whole pos s = Some (Match whole pos e m).
Proof. intros H. destruct s; simpl; by rewrite H. Qed.

Lemma sub_from_skip (ns : pattern) (t : list piece) (whole u rest : string) :
  ∀ pos, sub_from ns t whole (String.length u) pos (u +:+ rest)
         = sub_from ns t whole 0 (pos + String.length u) rest.
Proof.
  induction u as [|a u IH]; intros pos.
  - simpl. by rewrite Nat.add_0_r.
  - change (String a u +:+ rest) with (String a (u +:+ rest)).
    simpl. rewrite IH. by rewrite Nat.add_succ_r.
Qed.

Lemma sub_from_no_match (ns : pattern) (t : list piece) (whole rest : string) :
  anchor_free ns = true → ¬ occurs ns rest →
  ∀ pos, sub_from ns t whole 0 pos rest = rest.
Proof.
  intros Hf. induction rest as [|a rest IH]; intros Hn pos.
  - simpl. destruct (match_here ns no_marks pos "") as [[e m]|] eqn:Hm; [|done].
    destruct Hn. apply match_here_sound in Hm as (w & r & Hs & Hw & _).
    exists "", w, r. split; [done|]. by eapply accepts_anchor_free.
  - simpl.
    destruct (match_here ns no_marks pos (String a rest)) as [[e m]|] eqn:Hm.
    + destruct Hn. apply match_here_sound in Hm as (w & r & Hs & Hw & _).
      exists "", w, r. split; [done|]. by eapply accepts_anchor_free.
    + f_equal. apply IH. intros Ho. apply Hn. by apply occurs_cons.
Qed.

(** One match at the start and none after it: the match is replaced by
    the expanded template and the rest is kept. *)
Lemma sub_single_match (ns : pattern) (t : list piece) (u rest : string)
    (m : marks) :
  anchor_free ns = true →
  u ≠ "" →
  match_here ns no_marks 0 (u +:+ rest) = Some (String.length u, m) →
  ¬ occurs ns rest →
  sub ns t (u +:+ rest)
  = expand t (Match (u +:+ rest) 0 (String.length u) m) +:+ rest.
Proof.
  intros Hf Hu Hm Hn. unfold sub.
  destruct u as [|a u]; [done|].
  change (String a u +:+ rest) with (String a (u +:+ rest)) in *.
  cbn [sub_from]. rewrite Hm. f_equal.
  simpl. rewrite Nat.sub_0_r, sub_from_skip.
  by apply sub_from_no_match.
Qed.

Lemma str_take_app (s t : string) : Str.take (String.length s) (s +:+ t) = s.
Proof.
  induction s as [|a s IH]; [by destruct t|].
  change (String a s +:+ t) with (String a (s +:+ t)). simpl. by rewrite IH.
Qed.

(** X3. The plain rewrite in general: for a target without white space
    and a column list without a closing parenthesis, the column list is
    dropped and [TABLE] is put before the target, and the rest of the
    text is kept as it is when the pattern is not found in it again. *)
Theorem visit_insert_plain (target cols rest : string) :
  target ≠ "" →
  all_in (negate space) target = true →
  all_in (negate (literal ")"%char)) cols = true →
  search insert_regex rest = None →
  visit_insert ("INSERT INTO " +:+ target +:+ " (" +:+ cols +:+ ")" +:+ rest)
  = Ok ("INSERT INTO TABLE " +:+ target +:+ rest).
Proof.
  intros Hne Ht Hc Hn. apply search_None in Hn.
  pose proof (match_insert_regex target cols rest Hne Ht Hc) as Hm.
  unfold visit_insert, search.
  rewrite (search_from_hit _ _ _ _ _ _ Hm). f_equal.
  set (u := "INSERT INTO " +:+ target +:+ " (" +:+ cols +:+ ")").
  assert (Hs : "INSERT INTO " +:+ target +:+ " (" +:+ cols +:+ ")" +:+ rest
               = u +:+ rest).
  { unfold u. by rewrite !str_app_assoc. }
  assert (Hl : String.length u = 15 + String.length target + String.length cols).
  { unfold u. rewrite !str_length_app. simpl. lia. }
  rewrite Hs in Hm |- *. rewrite <-Hl in Hm.
  assert (Hu : u ≠ "") by done.
  rewrite (sub_single_match insert_regex _ u rest _ eq_refl Hu Hm Hn).
  cbn [expand group assoc closed m_marks subject Nat.eqb from_option id].
  unfold Str.slice. 
  replace (12 + String.length target - 12) with (String.length target) by lia.
  unfold u.
  change (Str.drop 12 (("INSERT INTO " +:+ ?x) +:+ ?r))
    with (x +:+ r).
  change (Str.take (11 - 0) (Str.drop 0 (("INSERT INTO " +:+ _) +:+ _)))
    with "INSERT INTO".
  rewrite (str_app_assoc target), str_take_app, str_app_nil_r.
  change ("INSERT INTO" +:+ " TABLE " +:+ target)
    with ("INSERT INTO TABLE " +:+ target).
  by rewrite str_app_assoc.
Qed.



Lemma match_insert_partition_regex (target spec cols rest : string) :
  target ≠ "" → spec ≠ "" →
  all_in (negate space) target = true →
  all_in (negate (literal ")"%char)) spec = true →
  all_in (negate (literal ")"%char)) cols = true →
  match_here insert_partition_regex no_marks 0
    ("INSERT INTO " +:+ target +:+ " PARTITION (" +:+ spec +:+ ") (" +:+ cols
       +:+ ")" +:+ rest)
  = Some (28 + String.length target + String.length spec + String.length cols,
          Marks [(3, 13 + String.length target); (2, 12); (1, 0)]
                [(3, (13 + String.length target,
                      25 + String.length target + String.length spec));
                 (2, (12, 12 + String.length target)); (1, (0, 11))]).
Proof.
  intros Hne Hse Ht Hsp Hc. unfold insert_partition_regex.
  change ([GroupOpen 1] ++ ?x) with (GroupOpen 1 :: x).
  cbn [match_here].
  change ("INSERT INTO " +:+ ?x) with ("INSERT INTO" +:+ " " +:+ x).
  rewrite match_here_lit.
  change ([GroupClose 1] ++ ?x) with (GroupClose 1 :: x).
  cbn [match_here].
  rewrite match_here_lit.
  change ([GroupOpen 2; ?a; ?b] ++ ?x) with (GroupOpen 2 :: a :: b :: x).
  cbn [match_here].
  destruct target as [|a target]; [done|].
  simpl in Ht. apply andb_true_iff in Ht as [Ha Ht].
  rewrite str_app_cons, Ha.
  apply greedy_max; [done | by intros ?? [= <- _] |].
  cbn [match_here].
  change (" PARTITION (" +:+ ?x) with (" " +:+ "PARTITION (" +:+ x).
  rewrite match_here_lit.
  change ([GroupOpen 3] ++ ?x) with (GroupOpen 3 :: x).
  cbn [match_here].
  rewrite match_here_lit.
  change ([MaxRepeat true ?p] ++ ?x) with (MaxRepeat true p :: x).
  cbn [match_here].
  destruct spec as [|b spec]; [done|].
  simpl in Hsp. apply andb_true_iff in Hsp as [Hb Hsp].
  rewrite str_app_cons, Hb.
  apply greedy_max; [done | by intros ?? [= <- _] |].
  change (") (" +:+ ?x) with (")" +:+ " (" +:+ x).
  rewrite match_here_lit.
  change ([GroupClose 3] ++ ?x) with (GroupClose 3 :: x).
  cbn [match_here].
  rewrite match_here_lit.
  change ([MaxRepeat false ?p] ++ ?x) with (MaxRepeat false p :: x).
  cbn [match_here].
  apply greedy_max; [done | by intros ?? [= <- _] |].
  rewrite <-(List.app_nil_r (lit ")")).
  rewrite match_here_lit.
  cbn [match_here].
  cbn [close_group open_group assoc opened closed Nat.eqb no_marks].
  simpl String.length.
  repeat (lia || f_equal).
Qed.

(** X4. The partitioned rewrite in general: when the plain pattern is not
    found in the text, the column list after the partition clause is
    dropped, [TABLE] is put before the target and the partition clause is
    kept, and so is the rest of the text when the partitioned pattern is
    not found in it again. *)
Theorem visit_insert_partition (target spec cols rest : string) :
  target ≠ "" → spec ≠ "" →
  all_in (negate space) target = true →
  all_in (negate (literal ")"%char)) spec = true →
  all_in (negate (literal ")"%char)) cols = true →
  search insert_regex
    ("INSERT INTO " +:+ target +:+ " PARTITION (" +:+ spec +:+ ") (" +:+ cols
       +:+ ")" +:+ rest) = None →
  search insert_partition_regex rest = None →
  visit_insert
    ("INSERT INTO " +:+ target +:+ " PARTITION (" +:+ spec +:+ ") (" +:+ cols
       +:+ ")" +:+ rest)
  = Ok ("INSERT INTO TABLE " +:+ target +:+ " PARTITION (" +:+ spec +:+ ")"
          +:+ rest).
Proof.
  intros Hne Hse Ht Hsp Hc Hplain Hn.
  pose proof (match_insert_partition_regex target spec cols rest
                Hne Hse Ht Hsp Hc) as Hm.
  unfold visit_insert. rewrite Hplain. unfold search.
  rewrite (search_from_hit _ _ _ _ _ _ Hm). f_equal.
  apply search_None in Hn.
  set (u := "INSERT INTO " +:+ target +:+ " PARTITION (" +:+ spec +:+ ") ("
              +:+ cols +:+ ")").
  assert (Hs : "INSERT INTO " +:+ target +:+ " PARTITION (" +:+ spec +:+ ") ("
                 +:+ cols +:+ ")" +:+ rest = u +:+ rest).
  { unfold u. by rewrite !str_app_assoc. }
  assert (Hl : String.length u
               = 28 + String.length target + String.length spec
                 + String.length cols).
  { unfold u. rewrite !str_length_app. simpl. lia. }
  rewrite Hs in Hm |- *. rewrite <-Hl in Hm.
  assert (Hu : u ≠ "") by done.
  rewrite (sub_single_match insert_partition_regex _ u rest _ eq_refl Hu Hm Hn).
  cbn [expand group assoc closed m_marks subject Nat.eqb from_option id].
  unfold Str.slice.
  replace (12 + String.length target - 12) with (String.length target) by lia.
  replace (25 + String.length target + String.length spec
           - (13 + String.length target))
    with (String.length ("PARTITION (" +:+ spec +:+ ")"))
    by (rewrite !str_length_app; simpl; lia).
  replace (13 + String.length target)
    with (String.length ("INSERT INTO " +:+ target +:+ " "))
    by (rewrite !str_length_app; simpl; lia).
  unfold u.
  change (Str.take (11 - 0) (Str.drop 0 (("INSERT INTO " +:+ _) +:+ _)))
    with "INSERT INTO".
  change (Str.drop 12 (("INSERT INTO " +:+ ?x) +:+ ?r)) with (x +:+ r).
  rewrite (str_app_assoc target), str_take_app.
  replace (("INSERT INTO " +:+ target +:+ " PARTITION (" +:+ spec +:+ ") ("
              +:+ cols +:+ ")") +:+ rest)
    with (("INSERT INTO " +:+ target +:+ " ")
            +:+ ("PARTITION (" +:+ spec +:+ ")")
            +:+ (" (" +:+ cols +:+ ")" +:+ rest))
    by (by rewrite !str_app_assoc).
  rewrite str_drop_app, str_take_app, str_app_nil_r.
  by rewrite !str_app_assoc.
Qed.


Lemma str_index_split (c : ascii) (s : string) : ∀ i,
  Str.index c s = Some i →
  ∃ pre, s = pre +:+ String c "" +:+ Str.drop (i + 1) s ∧ Str.count c pre = 0.
Proof.
  induction s as [|a s IH]; intros i H; simpl in H; [done|].
  destruct (Ascii.eqb_spec a c) as [->|Hne].
  - injection H as <-. exists "". split; [|done]. simpl. by destruct s.
  - destruct (Str.index c s) as [j|] eqn:Hj; [|done].
    injection H as <-. destruct (IH j eq_refl) as (pre & Hs & Hc).
    exists (String a pre). split.
    + change (Str.drop (S j + 1) (String a s)) with (Str.drop (j + 1) s).
      by rewrite str_app_cons, <-Hs.
    + simpl. destruct (Ascii.eqb_spec a c); [done|]. by rewrite Hc.
Qed.

Lemma str_index_is_Some (c : ascii) (s : string) :
  Str.count c s ≠ 0 → is_Some (Str.index c s).
Proof.
  induction s as [|a s IH]; simpl; [done|].
  destruct (Ascii.eqb a c); [by eexists|].
  intros H. destruct (IH H) as [i ->]. by eexists.
Qed.

(** X7. What [visit_column] returns has at most one separator, is the end
    of the rendered reference, and is returned unchanged when it is
    visited again. *)
Theorem visit_column_output (result r : string) :
  visit_column result = Ok r →
  Str.count "."%char r ≤ 1
  ∧ visit_column r = Ok r
  ∧ ∃ dropped, result = dropped +:+ r.
Proof.
  intros H.
  assert (Str.count "."%char r ≤ 1 ∧ ∃ dropped, result = dropped +:+ r)
    as [Hc Hd].
  { unfold visit_column in H.
    destruct (Str.count "."%char result) as [|[|[|n]]] eqn:Hn; simpl in H.
    - injection H as <-. split; [lia | by exists ""].
    - injection H as <-. split; [lia | by exists ""].
    - destruct (Str.index "."%char result) as [i|] eqn:Hi; [|done].
      injection H as <-.
      destruct (str_index_split _ _ _ Hi) as (pre & Hs & Hp).
      split.
      + rewrite Hs, !str_count_app, Hp in Hn. simpl in Hn. lia.
      + exists (pre +:+ "."). by rewrite str_app_assoc.
    - done. }
  split_and!; [done | by apply visit_column_unqualified | done].
Qed.

(** X8. [visit_column] returns text for every reference with at most two
    separators: the separator that [str.index] looks for is always there,
    so the only failure is the assertion on more than two. *)
Theorem visit_column_total (result : string) :
  (Str.count "."%char result ≤ 2 ∧ ∃ r, visit_column result = Ok r)
  ∨ (2 < Str.count "."%char result
     ∧ visit_column result
       = Raise (AssertionError ("Unexpected visit_column result " +:+ result))).
Proof.
  unfold visit_column.
  destruct (Str.count "."%char result) as [|[|[|n]]] eqn:Hn; simpl.
  - left. split; [lia | by eexists].
  - left. split; [lia | by eexists].
  - left. split; [lia|].
    destruct (str_index_is_Some "."%char result) as [i ->]; [lia | by eexists].
  - right. split; [lia | done].
Qed.

Lemma visit_insert_plain_witness :
  visit_insert "INSERT INTO `db`.`t` (`a`, `b`) VALUES (1, 2)"
  = Ok "INSERT INTO TABLE `db`.`t` VALUES (1, 2)".
Proof.
  apply (visit_insert_plain "`db`.`t`" "`a`, `b`" " VALUES (1, 2)");
    [done | reflexivity..].
Defined.

Lemma visit_insert_partition_witness :
  visit_insert "INSERT INTO `t` PARTITION (p=1, q='x') (`a`) SELECT 1"
  = Ok "INSERT INTO TABLE `t` PARTITION (p=1, q='x') SELECT 1".
Proof.
  apply (visit_insert_partition "`t`" "p=1, q='x'" "`a`" " SELECT 1");
    [done | done | reflexivity..].
Defined.

Lemma visit_column_output_witness :
  Str.count "."%char "`t`.`c`" ≤ 1
  ∧ visit_column "`t`.`c`" = Ok "`t`.`c`"
  ∧ ∃ dropped, "`s`.`t`.`c`" = dropped +:+ "`t`.`c`".
Proof. apply visit_column_output. reflexivity. Defined.

Lemma visit_column_strips_schema_witness :
  visit_column "`s`.`t`.`c`" = Ok "`t`.`c`".
Proof.
  apply (visit_column_strips_schema "`s`" "`t`.`c`"); reflexivity.
Defined.

End RewritingFacts.

(** ** Introspection, in general *)

Section IntrospectionFacts.
Import Re ReSpec HiveDialect IntrospectionSpec Reflection.
Context {connection : Type}.
Variable execute : string → connection → outcome (list row) * connection.
Variable quote_identifier : string → string.

Lemma match_is_Some (ns : pattern) (s : string) :
  is_Some (match_ ns s) ↔ ∃ w rest, s = w +:+ rest ∧ accepts ns 0 w.
Proof.
  unfold match_. split.
  - intros [mo H].
    destruct (match_here ns no_marks 0 s) as [[e m]|] eqn:Hm; [|done].
    apply match_here_sound in Hm as (w & rest & ? & ? & _). eauto.
  - intros (w & rest & -> & Hw).
    destruct (match_here_complete ns no_marks 0 w rest Hw) as [[e m] ->].
    by eexists.
Qed.

Lemma match_does_not_exist (name : string) :
  is_Some (match_ does_not_exist_regex name) ↔ does_not_exist_text name.
Proof.
  rewrite match_is_Some. unfold does_not_exist_text, does_not_exist_regex.
  split.
  - intros (w & rest & -> & Hw).
    apply accepts_lit in Hw as (w1 & -> & Hw).
    apply (accepts_star any) in Hw as (m & w2 & -> & Hm & Hw).
    rewrite <-(List.app_nil_r (lit " does not exist")) in Hw.
    apply accepts_lit in Hw as (w3 & -> & ->).
    exists m, rest. split; [|done]. by rewrite str_app_nil_r, !str_app_assoc.
  - intros (m & post & -> & Hm).
    exists ("Table " +:+ m +:+ " does not exist"), post.
    split; [by rewrite !str_app_assoc|].
    apply accepts_lit. eexists; split; [done|].
    apply (accepts_star any). exists m; eexists; split_and!; [done..|].
    rewrite <-(List.app_nil_r (lit " does not exist")).
    apply accepts_lit. exists "". by rewrite str_app_nil_r.
Qed.

(** X9. When the statement returns rows, [has_table] answers [True]
    unless there is exactly one row and its first cell starts with
    [Table], anything on one line and [does not exist]; it then answers
    [False]. *)
Theorem has_table_described (conn conn' : connection) (table_name : string)
    (schema : option string) (rows : list row) :
  execute ("DESCRIBE " +:+ full_table_name table_name schema) conn
    = (Ok rows, conn') →
  (length rows ≠ 1 → has_table execute conn table_name schema = (Ok true, conn'))
  ∧ (∀ name cells, rows = [Some name :: cells] →
       (does_not_exist_text name →
        has_table execute conn table_name schema = (Ok false, conn'))
       ∧ (¬ does_not_exist_text name →
          has_table execute conn table_name schema = (Ok true, conn'))).
Proof.
  intros H. unfold has_table, _get_table_columns. rewrite H. split.
  - intros Hl. destruct rows as [|r [|r' rows]]; done.
  - intros name cells ->. rewrite <-match_does_not_exist. split.
    + by intros [mo ->].
    + rewrite <-eq_None_not_Some. by intros ->.
Qed.

Lemma filter_rows_raises (rows : list row) (e : exn) :
  filter_rows rows = Raise e → e = IndexError.
Proof.
  induction rows as [|r rows IH]; simpl; [done|].
  destruct r as [|c0 r]; [by intros [= <-]|].
  destruct (filter_rows rows) as [rest|e']; simpl.
  - by destruct (_ && _).
  - intros [= <-]. by apply IH.
Qed.

Lemma columns_loop_raises (rows : list row) : ∀ result rt e rt',
  columns_loop rows result rt = (Raise e, rt') →
  e = TypeError ∨ e = AttributeError ∨ (∃ k, e = KeyError k)
  ∨ e = ValueError "unpack".
Proof.
  induction rows as [|r rows IH]; intros result rt e rt' H; [done|].
  destruct r as [|c1 [|c2 [|c3 [|c4 r]]]]; cbn [columns_loop] in H;
    try (injection H as <- _; by auto).
  destruct (bool_decide _); [done|].
  destruct c2 as [col_type|]; [|injection H as <- _; by auto].
  destruct (search type_name_regex col_type) as [m|];
    [|injection H as <- _; by auto].
  destruct (_type_map !! _) as [t|];
    (destruct (search array_regex col_type) as [am|];
     [destruct (_type_map !! _) as [it|];
      [by eapply IH | injection H as <- _; eauto 6]
     | by eapply IH]).
Qed.

Lemma marker_loop_raises (rows : list row) : ∀ n i e,
  marker_loop rows n i = Raise e → e = ValueError "unpack".
Proof.
  induction rows as [|r rows IH]; intros n i e H; [done|].
  destruct r as [|c1 [|c2 [|c3 [|c4 r]]]]; simpl in H;
    try (by injection H as <-).
  destruct (bool_decide _); [done|]. by eapply IH.
Qed.

Lemma names_loop_raises (rows : list row) : ∀ acc e,
  names_loop rows acc = Raise e → e = ValueError "unpack".
Proof.
  induction rows as [|r rows IH]; intros acc e H; [done|].
  destruct r as [|c1 [|c2 [|c3 [|c4 r]]]]; simpl in H;
    try (by injection H as <-).
  by eapply IH.
Qed.

Lemma has_table_false_iff (conn c : connection) (table_name : string)
    (schema : option string) :
  has_table execute conn table_name schema = (Ok false, c) ↔
  ∃ n, _get_table_columns execute conn table_name schema
       = (Raise (NoSuchTableError n), c).
Proof.
  unfold has_table.
  destruct (_get_table_columns execute conn table_name schema) as [[rows|e] c'].
  - split; [done | by intros [n ?]].
  - destruct e; (split; [intros [= <-] || intros [=]; eauto | intros [n [=]]; by subst]).
Qed.

Lemma get_columns_NoSuchTable_iff (conn c : connection) (table_name : string)
    (schema : option string) (rt rt' : runtime) (n : string) :
  get_columns execute conn table_name schema rt
    = (Raise (NoSuchTableError n), c, rt') ↔
  _get_table_columns execute conn table_name schema
    = (Raise (NoSuchTableError n), c) ∧ rt' = rt.
Proof.
  unfold get_columns.
  destruct (_get_table_columns execute conn table_name schema) as [[rows|e] c'].
  - split; [|by intros [[=] _]].
    destruct (filter_rows (strip_row <$> rows)) as [rows'|e] eqn:Hf.
    + destruct (columns_loop rows' [] rt) as [[cols|e] rt1] eqn:Hc; [done|].
      intros [= -> -> ->].
      apply columns_loop_raises in Hc as [?|[?|[[k ?]|?]]]; done.
    + intros [= -> -> ->]. by apply filter_rows_raises in Hf.
  - split; [by intros [= -> -> ->] | by intros [[= -> ->] ->]].
Qed.

Lemma get_indexes_NoSuchTable_iff (conn c : connection) (table_name : string)
    (schema : option string) (n : string) :
  get_indexes execute conn table_name schema = (Raise (NoSuchTableError n), c) ↔
  _get_table_columns execute conn table_name schema
    = (Raise (NoSuchTableError n), c).
Proof.
  unfold get_indexes.
  destruct (_get_table_columns execute conn table_name schema) as [[rows|e] c'].
  - split; [|done].
    destruct (filter_rows (strip_row <$> rows)) as [rows'|e] eqn:Hf; simpl.
    + destruct (marker_loop rows' 0 None) as [[i|]|e] eqn:Hi; simpl.
      * destruct (names_loop (drop (i + 1) rows') []) as [[|x l]|e] eqn:Hn;
          simpl; try done.
        intros [= -> ->]. by apply names_loop_raises in Hn.
      * done.
      * intros [= -> ->]. by apply marker_loop_raises in Hi.
    + intros [= -> ->]. by apply filter_rows_raises in Hf.
  - split; [by intros [= -> ->] | by intros [= -> ->]].
Qed.

(** X10. The three calls agree on a missing table: [has_table] answers
    [False] exactly when [get_columns] raises [NoSuchTableError], and
    exactly when [get_indexes] does, with the same connection state. *)
Theorem missing_table_consistent (conn c : connection) (table_name : string)
    (schema : option string) (rt : runtime) :
  (has_table execute conn table_name schema = (Ok false, c) ↔
   ∃ n, get_columns execute conn table_name schema rt
        = (Raise (NoSuchTableError n), c, rt))
  ∧ (has_table execute conn table_name schema = (Ok false, c) ↔
     ∃ n, get_indexes execute conn table_name schema
          = (Raise (NoSuchTableError n), c)).
Proof.
  rewrite has_table_false_iff. split; split.
  - intros [n H]. exists n. by apply get_columns_NoSuchTable_iff.
  - intros [n H]. exists n. by apply get_columns_NoSuchTable_iff in H as [? _].
  - intros [n H]. exists n. by apply get_indexes_NoSuchTable_iff.
  - intros [n H]. exists n. by apply get_indexes_NoSuchTable_iff.
Qed.

(** X11. The rows after the first marker row play no part in the loop
    of [get_columns]: the result and the state are those of the rows
    before it. *)
Theorem columns_loop_stops_at_marker (pre post : list row)
    (col_type _comment : option string) : ∀ result rt,
  columns_loop (pre ++ [Some partition_marker; col_type; _comment] :: post)
    result rt
  = columns_loop pre result rt.
Proof.
  induction pre as [|r pre IH]; intros result rt.
  - cbn [app columns_loop]. by rewrite bool_decide_true.
  - destruct r as [|c1 [|c2 [|c3 [|c4 r]]]]; try done.
    cbn [app columns_loop].
    destruct (bool_decide _); [done|].
    destruct c2 as [ct|]; [|done].
    destruct (search type_name_regex ct) as [m|]; [|done].
    destruct (_type_map !! _) as [t|];
      (destruct (search array_regex ct) as [am|];
       [destruct (_type_map !! _) as [it|]; [apply IH | done] | apply IH]).
Qed.

Lemma not_registered_NullType (name : string) :
  _type_map !! name ≠ Some types_NullType.
Proof.
  intros H. apply elem_of_list_to_map_2 in H.
  assert (Forall (λ kv : string * type_class, kv.2 ≠ types_NullType)
            _type_map_items) as Hall.
  { unfold _type_map_items. repeat (apply List.Forall_cons; [done|]).
    apply List.Forall_nil. }
  rewrite Forall_forall in Hall. by apply (Hall _ H).
Qed.

(** What the loop of [get_columns] has done when it returns. *)
Lemma columns_loop_Ok (rows : list row) : ∀ result rt cols rt',
  columns_loop rows result rt = (Ok cols, rt') →
  ∃ new ws,
    cols = result ++ new
    ∧ Forall (λ c, c_nullable c = true ∧ c_default c = None
                   ∧ (c_type c = types_NullType ∨ registered (c_type c))) new
    ∧ c_name <$> new = first_cell <$> before_marker rows
    ∧ c_comment <$> new = third_cell <$> before_marker rows
    ∧ warnings rt' = warnings rt ++ ws
    ∧ length ws = length (filter (λ c, is_NullType c = true) new).
Proof.
  induction rows as [|r rows IH]; intros result rt cols rt' H.
  { injection H as <- <-. exists [], []. rewrite !app_nil_r. done. }
  destruct r as [|c1 [|c2 [|c3 [|c4 r]]]]; try done.
  cbn [columns_loop] in H.
  cbn [before_marker]. unfold is_marker. cbn [head].
  destruct (bool_decide (c1 = Some partition_marker)) eqn:Hmk.
  { apply bool_decide_eq_true in Hmk as ->. rewrite bool_decide_true by done.
    injection H as <- <-. exists [], []. rewrite !app_nil_r. done. }
  apply bool_decide_eq_false in Hmk.
  rewrite bool_decide_false by congruence.
  destruct c2 as [ct|]; [|done].
  destruct (search type_name_regex ct) as [m|]; [|done].
  destruct (_type_map !! default "" (group m 0)) as [t|] eqn:Ht.
  - assert (∃ rt1, columns_loop rows (result ++ [Column c1 t true None c3]) rt1
                   = (Ok cols, rt') ∧ warnings rt1 = warnings rt)
      as (rt1 & H1 & Hw1).
    { destruct (search array_regex ct) as [am|]; [|by exists rt].
      destruct (_type_map !! default "" (group am 1)) as [it|]; [|done].
      by exists (set_item_type t it rt). }
    apply IH in H1 as (new & ws & -> & Hall & Hn & Hc & Hw & Hl).
    exists (Column c1 t true None c3 :: new), ws.
    rewrite <-app_assoc. split_and!; [done| | | | |].
    + constructor; [|done]. split_and!; [done..|]. right. by eexists.
    + by rewrite fmap_cons, Hn.
    + by rewrite fmap_cons, Hc.
    + by rewrite Hw, Hw1.
    + rewrite filter_cons_False; [done|].
      unfold is_NullType. simpl. rewrite bool_decide_eq_true.
      intros ->. by eapply not_registered_NullType.
  - set (w := "Did not recognize type '" +:+ ct +:+ "' of column '"
              +:+ percent_s c1 +:+ "'") in *.
    assert (∃ rt1, columns_loop rows
                     (result ++ [Column c1 types_NullType true None c3]) rt1
                   = (Ok cols, rt') ∧ warnings rt1 = warnings rt ++ [w])
      as (rt1 & H1 & Hw1).
    { destruct (search array_regex ct) as [am|]; [|by exists (warn w rt)].
      destruct (_type_map !! default "" (group am 1)) as [it|]; [|done].
      by exists (set_item_type types_NullType it (warn w rt)). }
    apply IH in H1 as (new & ws & -> & Hall & Hn & Hc & Hw & Hl).
    exists (Column c1 types_NullType true None c3 :: new), (w :: ws).
    rewrite <-app_assoc. split_and!; [done| | | | |].
    + constructor; [|done]. split_and!; [done..|]. by left.
    + by rewrite fmap_cons, Hn.
    + by rewrite fmap_cons, Hc.
    + by rewrite Hw, Hw1, <-app_assoc.
    + rewrite filter_cons_True by done. simpl. by rewrite Hl.
Qed.

Lemma literal_i_a (a : ascii) :
  literal_i "a" a = true → a = "a"%char ∨ a = "A"%char.
Proof.
  destruct a as [[] [] [] [] [] [] [] []]; vm_compute; intros H;
    try discriminate; auto.
Qed.

Lemma literal_i_r (a : ascii) :
  literal_i "r" a = true → a = "r"%char ∨ a = "R"%char.
Proof.
  destruct a as [[] [] [] [] [] [] [] []]; vm_compute; intros H;
    try discriminate; auto.
Qed.

Lemma literal_i_y (a : ascii) :
  literal_i "y" a = true → a = "y"%char ∨ a = "Y"%char.
Proof.
  destruct a as [[] [] [] [] [] [] [] []]; vm_compute; intros H;
    try discriminate; auto.
Qed.

Lemma literal_i_lt (a : ascii) : literal_i "<" a = true → a = "<"%char.
Proof.
  destruct a as [[] [] [] [] [] [] [] []]; vm_compute; intros H;
    try discriminate; auto.
Qed.

(** A type text in which the array pattern is found resolves to
    [HiveArray] whenever its leading name is in the registry. *)
Lemma array_text_token (ct : string) (am m : match_object) (t : type_class) :
  search array_regex ct = Some am →
  search type_name_regex ct = Some m →
  _type_map !! default "" (group m 0) = Some t →
  t = HiveArray.
Proof.
  intros Ha Hm Ht.
  assert (is_Some (search array_regex ct)) as Ho by by eexists.
  apply search_is_Some in Ho as (pre & w & post & -> & Hw).
  unfold array_regex in Hw.
  cbn [app lit_i accepts] in Hw.
  destruct Hw as (Hpre & c1 & w1 & -> & H1 & c2 & w2 & -> & H2
                  & c3 & w3 & -> & H3 & c4 & w4 & -> & H4
                  & c5 & w5 & -> & H5 & c6 & w6 & -> & H6 & _).
  destruct pre; [|done]. clear Hpre Ha.
  apply literal_i_a in H1, H4. apply literal_i_r in H2, H3.
  apply literal_i_y in H5. apply literal_i_lt in H6. subst c6.
  destruct H1 as [-> | ->], H2 as [-> | ->], H3 as [-> | ->],
    H4 as [-> | ->], H5 as [-> | ->];
    vm_compute in Hm; injection Hm as <-;
    vm_compute in Ht; congruence.
Qed.

(** The loop of [get_columns] assigns [item_type] on [HiveArray] and on
    [NullType] only. *)
Lemma columns_loop_item_type_frame (rows : list row) : ∀ result rt r rt' c,
  columns_loop rows result rt = (r, rt') →
  c ≠ HiveArray → c ≠ types_NullType →
  item_type_attr rt' !! c = item_type_attr rt !! c.
Proof.
  induction rows as [|row rows IH]; intros result rt r rt' c H Hc1 Hc2.
  { by injection H as <- <-. }
  destruct row as [|c1 [|c2 [|c3 [|c4 row]]]];
    try (by injection H as <- <-).
  cbn [columns_loop] in H.
  destruct (bool_decide _); [by injection H as <- <-|].
  destruct c2 as [ct|]; [|by injection H as <- <-].
  destruct (search type_name_regex ct) as [m|] eqn:Hm;
    [|by injection H as <- <-].
  destruct (_type_map !! default "" (group m 0)) as [t|] eqn:Ht.
  - destruct (search array_regex ct) as [am|] eqn:Ha; [|by eapply IH].
    destruct (_type_map !! default "" (group am 1)) as [it|];
      [|by injection H as <- <-].
    rewrite (IH _ _ _ _ c H Hc1 Hc2).
    rewrite (array_text_token ct am m t Ha Hm Ht).
    simpl. by rewrite lookup_insert_ne.
  - destruct (search array_regex ct) as [am|] eqn:Ha.
    + destruct (_type_map !! default "" (group am 1)) as [it|];
        [|by injection H as <- <-].
      rewrite (IH _ _ _ _ c H Hc1 Hc2). simpl. by rewrite lookup_insert_ne.
    + by rewrite (IH _ _ _ _ c H Hc1 Hc2).
Qed.

Lemma get_columns_Ok_inv (conn conn' : connection) (table_name : string)
    (schema : option string) (rt rt' : runtime) (cols : list column) :
  get_columns execute conn table_name schema rt = (Ok cols, conn', rt') →
  ∃ raw rows,
    _get_table_columns execute conn table_name schema = (Ok raw, conn')
    ∧ filter_rows (strip_row <$> raw) = Ok rows
    ∧ columns_loop rows [] rt = (Ok cols, rt').
Proof.
  unfold get_columns.
  destruct (_get_table_columns execute conn table_name schema)
    as [[raw|e] c]; [|done].
  destruct (filter_rows (strip_row <$> raw)) as [rows|e] eqn:Hf; [|done].
  destruct (columns_loop rows [] rt) as [r rt1] eqn:Hc.
  intros [= -> -> ->]. by exists raw, rows.
Qed.

(** X12. Every column that [get_columns] returns is nullable and without
    a default, and its type is a class of the registry or [NullType]. *)
Theorem get_columns_descriptors (conn conn' : connection) (table_name : string)
    (schema : option string) (rt rt' : runtime) (cols : list column) :
  get_columns execute conn table_name schema rt = (Ok cols, conn', rt') →
  Forall (λ c, c_nullable c = true ∧ c_default c = None
               ∧ (c_type c = types_NullType ∨ registered (c_type c))) cols.
Proof.
  intros H. apply get_columns_Ok_inv in H as (raw & rows & _ & _ & H).
  by apply columns_loop_Ok in H as (new & ws & -> & Hall & _).
Qed.

(** X13. The columns that [get_columns] returns are, in order, the rows
    that are before the partition marker once the description is stripped
    and filtered: their first cells are the names and their third cells
    the comments. *)
Theorem get_columns_names (conn conn' : connection) (table_name : string)
    (schema : option string) (rt rt' : runtime) (cols : list column) :
  get_columns execute conn table_name schema rt = (Ok cols, conn', rt') →
  ∃ raw rows,
    _get_table_columns execute conn table_name schema = (Ok raw, conn')
    ∧ filter_rows (strip_row <$> raw) = Ok rows
    ∧ c_name <$> cols = first_cell <$> before_marker rows
    ∧ c_comment <$> cols = third_cell <$> before_marker rows.
Proof.
  intros H. apply get_columns_Ok_inv in H as (raw & rows & Hg & Hf & H).
  apply columns_loop_Ok in H as (new & ws & -> & _ & Hn & Hc & _).
  by exists raw, rows.
Qed.

(** X14. [get_columns] keeps the warnings emitted before it and adds one
    for each column it returns with [NullType]. *)
Theorem get_columns_warnings (conn conn' : connection) (table_name : string)
    (schema : option string) (rt rt' : runtime) (cols : list column) :
  get_columns execute conn table_name schema rt = (Ok cols, conn', rt') →
  ∃ ws, warnings rt' = warnings rt ++ ws
        ∧ length ws = length (filter (λ c, is_NullType c = true) cols).
Proof.
  intros H. apply get_columns_Ok_inv in H as (raw & rows & _ & _ & H).
  apply columns_loop_Ok in H as (new & ws & -> & _ & _ & _ & Hw & Hl).
  by exists ws.
Qed.

(** X15. Whatever it returns or raises, [get_columns] assigns [item_type]
    on no class other than [HiveArray] and [NullType]. *)
Theorem get_columns_item_type_frame (conn conn' : connection)
    (table_name : string) (schema : option string) (rt rt' : runtime)
    (r : outcome (list column)) (c : type_class) :
  get_columns execute conn table_name schema rt = (r, conn', rt') →
  c ≠ HiveArray → c ≠ types_NullType →
  item_type_attr rt' !! c = item_type_attr rt !! c.
Proof.
  unfold get_columns.
  destruct (_get_table_columns execute conn table_name schema)
    as [[raw|e] c0]; [|by intros [= <- <- <-]].
  destruct (filter_rows (strip_row <$> raw)) as [rows|e];
    [|by intros [= <- <- <-]].
  destruct (columns_loop rows [] rt) as [r1 rt1] eqn:Hc.
  intros [= <- <- <-] H1 H2. by eapply columns_loop_item_type_frame.
Qed.

Lemma is_marker_three (c1 c2 c3 : option string) :
  bool_decide (c1 = Some partition_marker) = is_marker [c1; c2; c3].
Proof. unfold is_marker. apply bool_decide_ext. simpl. naive_solver. Qed.

Lemma marker_loop_Ok (rows : list row) : ∀ n i,
  Forall three_cells rows →
  ∃ j, marker_loop rows n i = Ok j
       ∧ (rows = [] → j = i)
       ∧ (rows ≠ [] →
          ∃ k, j = Some (n + k) ∧ drop (S k) rows = after_marker rows).
Proof.
  induction rows as [|r rows IH]; intros n i Hall.
  { exists i. done. }
  apply Forall_cons in Hall as [Hr Hall].
  destruct r as [|c1 [|c2 [|c3 [|c4 r]]]]; try done.
  cbn [marker_loop after_marker]. rewrite (is_marker_three c1 c2 c3).
  destruct (is_marker [c1; c2; c3]).
  - exists (Some n). split_and!; [done..|]. intros _. exists 0.
    split; [by rewrite Nat.add_0_r | done].
  - destruct (IH (S n) (Some n) Hall) as (j & -> & Hnil & Hcons).
    exists j. split_and!; [done..|]. intros _.
    destruct rows as [|r' rows'].
    + exists 0. rewrite Hnil by done. by rewrite Nat.add_0_r.
    + destruct Hcons as (k & -> & Hd); [done|].
      exists (S k). split; [f_equal; lia | done].
Qed.

Lemma names_loop_Ok (rows : list row) : ∀ acc,
  Forall three_cells rows →
  names_loop rows acc = Ok (acc ++ (first_cell <$> rows)).
Proof.
  induction rows as [|r rows IH]; intros acc Hall.
  { simpl. by rewrite app_nil_r. }
  apply Forall_cons in Hall as [Hr Hall].
  destruct r as [|c1 [|c2 [|c3 [|c4 r]]]]; try done.
  cbn [names_loop]. rewrite IH by done.
  by rewrite <-app_assoc.
Qed.

Lemma after_marker_three (rows : list row) :
  Forall three_cells rows → Forall three_cells (after_marker rows).
Proof.
  induction 1 as [|r rows Hr Hall IH]; simpl; [done|].
  by destruct (is_marker r).
Qed.

(** X16. For a description of three-cell rows, [get_indexes] reports one
    index named [partition] over the first cells of the rows after the
    first partition marker, in their order, and no index when there is no
    marker or no row after it. *)
Theorem get_indexes_partition (conn conn' : connection) (table_name : string)
    (schema : option string) (raw rows : list row) :
  _get_table_columns execute conn table_name schema = (Ok raw, conn') →
  filter_rows (strip_row <$> raw) = Ok rows →
  Forall three_cells rows →
  rows ≠ [] →
  get_indexes execute conn table_name schema
  = (Ok (match first_cell <$> after_marker rows with
         | [] => []
         | names => [Index "partition" names false]
         end), conn').
Proof.
  intros Hg Hf Hall Hne. unfold get_indexes. rewrite Hg, Hf.
  cbn [mbind outcome_bind].
  destruct (marker_loop_Ok rows 0 None Hall) as (j & -> & _ & Hcons).
  destruct (Hcons Hne) as (k & -> & Hd).
  cbn [mbind outcome_bind Nat.add].
  rewrite Nat.add_1_r, Hd.
  rewrite names_loop_Ok by by apply after_marker_three.
  cbn [mbind outcome_bind app].
  by destruct (first_cell <$> after_marker rows).
Qed.

(** X17. When no row is left after the filtering (an empty description,
    or blank and header rows only), [get_indexes] raises
    [UnboundLocalError] for its loop variable, while [get_columns] returns
    no column and [has_table] answers [True]. *)
Theorem get_indexes_no_rows (conn conn' : connection) (table_name : string)
    (schema : option string) (raw : list row) (rt : runtime) :
  _get_table_columns execute conn table_name schema = (Ok raw, conn') →
  filter_rows (strip_row <$> raw) = Ok [] →
  get_indexes execute conn table_name schema
    = (Raise (UnboundLocalError "i"), conn')
  ∧ get_columns execute conn table_name schema rt = (Ok [], conn', rt)
  ∧ has_table execute conn table_name schema = (Ok true, conn').
Proof.
  intros Hg Hf. unfold get_indexes, get_columns, has_table.
  by rewrite Hg, Hf.
Qed.

Lemma first_cells_Ok (rows : list row) :
  Forall (λ r, r ≠ []) rows → first_cells rows = Ok (first_cell <$> rows).
Proof.
  induction 1 as [|r rows Hr Hall IH]; [done|].
  destruct r as [|c0 r]; [done|]. simpl. by rewrite IH.
Qed.

Lemma first_cells_empty_row (rows : list row) :
  [] ∈ rows → first_cells rows = Raise IndexError.
Proof.
  induction rows as [|r rows IH]; intros H; [by apply elem_of_nil in H|].
  destruct r as [|c0 r]; [done|].
  apply elem_of_cons in H as [|H]; [done|]. simpl. by rewrite IH.
Qed.

(** X18. [get_schema_names], and [get_table_names] without a schema or
    with an empty one, list the first cell of each row in the order of
    the rows; a row without cells raises [IndexError]. *)
Theorem get_names_rows (conn conn' : connection) (rows : list row) :
  (execute "SHOW SCHEMAS" conn = (Ok rows, conn') →
     (Forall (λ r, r ≠ []) rows →
      get_schema_names execute conn = (Ok (first_cell <$> rows), conn'))
     ∧ ([] ∈ rows → get_schema_names execute conn = (Raise IndexError, conn')))
  ∧ (execute "SHOW TABLES" conn = (Ok rows, conn') →
     ∀ schema, schema = None ∨ schema = Some "" →
       (Forall (λ r, r ≠ []) rows →
        get_table_names execute quote_identifier conn schema
          = (Ok (first_cell <$> rows), conn'))
       ∧ ([] ∈ rows →
          get_table_names execute quote_identifier conn schema
            = (Raise IndexError, conn'))).
Proof.
  split.
  - intros H. unfold get_schema_names. rewrite H. split; intros Hr.
    + by rewrite first_cells_Ok.
    + by rewrite first_cells_empty_row.
  - intros H schema [-> | ->]; unfold get_table_names; simpl; rewrite H;
      (split; intros Hr;
       [by rewrite first_cells_Ok | by rewrite first_cells_empty_row]).
Qed.

End IntrospectionFacts.

(** ** Connection arguments, result processors, constructor, properties *)

Section ConnectFacts.
Import ConnectArgs.

(** X19. A query parameter of the URL wins over the part of the URL with
    the same key, in both dialects. *)
Theorem query_overrides (u : URL) (d : dialect) (k v : string) :
  query u !! k = Some v →
  (create_connect_args u).2 !! k = Some (PyStr v)
  ∧ (http_create_connect_args d u).2 !! k = Some (PyStr v).
Proof.
  intros H.
  assert (∀ kw, update kw (query u) !! k = Some (PyStr v)) as Hu.
  { intros kw. unfold update. apply lookup_union_Some_l.
    by rewrite lookup_fmap, H. }
  split; [apply Hu|].
  unfold http_create_connect_args.
  destruct (bool_decide (query u = ∅)) eqn:E; [|apply Hu].
  apply bool_decide_eq_true in E. rewrite E in H. done.
Qed.


(** X21. The HTTP dialects pass their scheme, pass a database only when
    the query has one, and pass an empty user name as [None]. *)
Theorem http_connect_args (d : dialect) (u : URL) :
  (query u !! "scheme" = None →
   (http_create_connect_args d u).2 !! "scheme" = Some (PyStr (scheme d)))
  ∧ (http_create_connect_args d u).2 !! "database"
    = PyStr <$> query u !! "database"
  ∧ (query u !! "username" = None → username u = Some "" →
     (http_create_connect_args d u).2 !! "username" = Some PyNone).
Proof.
  assert (∀ kw : gmap string py_value,
            (http_create_connect_args d u).2
            = update
                (<["password" := str_or (password u) PyNone]>
                 (<["username" := str_or (username u) PyNone]>
                 (<["scheme" := PyStr (scheme d)]>
                 (<["port" := port_or_default u]>
                 (<["host" := of_option (host u)]> ∅))))) (query u)) as Heq.
  { intros _. unfold http_create_connect_args.
    destruct (bool_decide (query u = ∅)) eqn:E; [|done].
    apply bool_decide_eq_true in E. rewrite E. unfold update. simpl.
    by rewrite fmap_empty, (left_id_L ∅ (∪)). }
  rewrite (Heq ∅). unfold update. split_and!.
  - intros H. rewrite lookup_union_r by by rewrite lookup_fmap, H.
    rewrite !lookup_insert_ne by done. by rewrite lookup_insert_eq.
  - rewrite lookup_union, lookup_fmap.
    rewrite !lookup_insert_ne by done. rewrite lookup_empty.
    by destruct (query u !! "database").
  - intros H Hu. rewrite lookup_union_r by by rewrite lookup_fmap, H.
    rewrite lookup_insert_ne by done. rewrite lookup_insert_eq.
    by rewrite Hu.
Qed.
End ConnectFacts.

Section ProcessorFacts.
Import ResultProcessors.
Variable parse : py_value → outcome (Z * Z * Z * Z * Z * Z).
Variable Decimal : py_value → outcome string.

(** X22. A value that a result processor returned is returned unchanged
    when it is processed again, and a processor returns [None] for [None]
    only. *)
Theorem result_processors_idempotent (value r : py_value) :
  (HiveDate_process parse value = Ok r →
     HiveDate_process parse r = Ok r ∧ (r = PyNone → value = PyNone))
  ∧ (HiveTimestamp_process parse value = Ok r →
     HiveTimestamp_process parse r = Ok r ∧ (r = PyNone → value = PyNone))
  ∧ (HiveDecimal_process Decimal value = Ok r →
     HiveDecimal_process Decimal r = Ok r ∧ (r = PyNone → value = PyNone)).
Proof.
  split_and!; intros H.
  - destruct value; simpl in H;
      try (injection H as <-; done);
      (destruct (parse _) as [[[[[[? ?] ?] ?] ?] ?]|?]; simpl in H;
       [injection H as <-; done | done]).
  - destruct value; simpl in H;
      try (injection H as <-; done);
      (destruct (parse _) as [[[[[[? ?] ?] ?] ?] ?]|?]; simpl in H;
       [injection H as <-; done | done]).
  - destruct value; simpl in H;
      try (injection H as <-; done);
      (destruct (Decimal _) as [?|?]; simpl in H;
       [injection H as <-; done | done]).
Qed.
End ProcessorFacts.

Section TypeFacts2.

Lemma registered_HiveArray (s : string) :
  _type_map !! s = Some HiveArray → s = "array".
Proof.
  intros H. apply elem_of_list_to_map_2 in H. unfold _type_map_items in H.
  repeat (apply elem_of_cons in H as [H|H];
          [by simplify_eq|]).
  by apply elem_of_nil in H.
Qed.

(** X23. A constructed [HiveArray] holds the dimensions and the index
    base it was given and an item type that is neither a [HiveArray]
    instance nor a name; the item type is the class [HiveArray] only when
    the name [array] was passed. *)
Theorem HiveArray_init_Ok (item_type r : type_argument)
    (dimensions : option Z) (zero_indexes : bool) :
  HiveArray_init item_type dimensions zero_indexes = Ok r →
  ∃ it, r = HiveArrayInstance it dimensions zero_indexes
        ∧ isinstance_HiveArray it = false
        ∧ (∀ s, it ≠ Name s)
        ∧ (it = Class_ HiveArray → item_type = Name "array").
Proof.
  unfold HiveArray_init.
  destruct (isinstance_HiveArray item_type) eqn:Hi; [done|].
  destruct item_type as [c|c|t d z|s]; cbv [mbind outcome_bind instantiate].
  - destruct c; intros [= <-]; eexists; split_and!; done.
  - intros [= <-]. eexists; split_and!; done.
  - done.
  - destruct (_type_map !! s) as [c|] eqn:Hs; [|done].
    intros [= <-]. eexists; split_and!; [done..|].
    intros [= ->]. by rewrite (registered_HiveArray s Hs).
Qed.
End TypeFacts2.

Section DDLFacts2.
Import HiveDDLCompiler DDLSpec.

(** X24. The table properties are rendered one pair for each item of
    the mapping, and the pair of every item is among them. *)
Theorem table_properties_items (items : list (string * string)) :
  length (table_properties items) = length items
  ∧ ∀ k v, (k, v) ∈ items →
      ("'" +:+ k +:+ "' = '" +:+ v +:+ "'") ∈ table_properties items.
Proof.
  unfold table_properties. split.
  - by rewrite length_fmap, sorted_Permutation.
  - intros k v H.
    apply (list_elem_of_fmap_2
             (λ kv : string * string, "'" +:+ kv.1 +:+ "' = '" +:+ kv.2 +:+ "'")
             _ (k, v)).
    by rewrite sorted_Permutation.
Qed.

End DDLFacts2.

(** ** The general statements on the sample description *)

Section SampleFacts.
Import Re ReSpec HiveDialect IntrospectionSpec Reflection.

Lemma has_table_described_witness :
  has_table (Scripted.execute Sample.script) 0 "gone" (Some "db")
  = (Ok false, 1).
Proof.
  eapply (proj1 (proj2 (has_table_described (Scripted.execute Sample.script)
            0 1 "gone" (Some "db") _ eq_refl) _ _ eq_refl)).
  exists "db.gone", "". split; reflexivity.
Defined.

Lemma get_columns_descriptors_witness :
  Forall (λ c, c_nullable c = true ∧ c_default c = None
               ∧ (c_type c = types_NullType ∨ registered (c_type c)))
    Sample.columns_t.
Proof.
  apply (get_columns_descriptors (Scripted.execute Sample.script) 0 1 "t" None
           (Runtime ∅ []) Sample.runtime_t).
  vm_compute. reflexivity.
Defined.

Lemma get_columns_names_witness :
  ∃ raw rows,
    _get_table_columns (Scripted.execute Sample.script) 0 "t" None
      = (Ok raw, 1)
    ∧ filter_rows (strip_row <$> raw) = Ok rows
    ∧ c_name <$> Sample.columns_t = first_cell <$> before_marker rows
    ∧ c_comment <$> Sample.columns_t = third_cell <$> before_marker rows.
Proof.
  apply (get_columns_names (Scripted.execute Sample.script) 0 1 "t" None
           (Runtime ∅ []) Sample.runtime_t).
  vm_compute. reflexivity.
Defined.

Lemma get_columns_warnings_witness :
  ∃ ws, warnings Sample.runtime_t = [] ++ ws
        ∧ length ws
          = length (filter (λ c, is_NullType c = true) Sample.columns_t).
Proof.
  apply (get_columns_warnings (Scripted.execute Sample.script) 0 1 "t" None
           (Runtime ∅ []) Sample.runtime_t).
  vm_compute. reflexivity.
Defined.

Lemma get_columns_item_type_frame_witness :
  item_type_attr Sample.runtime_t !! types_Integer
  = item_type_attr (Runtime ∅ []) !! types_Integer.
Proof.
  apply (get_columns_item_type_frame (Scripted.execute Sample.script) 0 1 "t"
           None (Runtime ∅ []) Sample.runtime_t (Ok Sample.columns_t)
           types_Integer); [vm_compute; reflexivity | done | done].
Defined.

Lemma get_indexes_partition_witness :
  get_indexes (Scripted.execute Sample.script) 0 "t" None
  = (Ok [Index "partition" [Some "p"] false], 1).
Proof.
  apply (get_indexes_partition (Scripted.execute Sample.script) 0 1 "t" None
           Sample.raw_t Sample.rows_t);
    [reflexivity | vm_compute; reflexivity | | done].
  repeat (apply List.Forall_cons; [reflexivity|]). apply List.Forall_nil.
Defined.

Lemma get_indexes_no_rows_witness :
  get_indexes (Scripted.execute Sample.script) 0 "blank" None
    = (Raise (UnboundLocalError "i"), 1)
  ∧ get_columns (Scripted.execute Sample.script) 0 "blank" None (Runtime ∅ [])
    = (Ok [], 1, Runtime ∅ [])
  ∧ has_table (Scripted.execute Sample.script) 0 "blank" None = (Ok true, 1).
Proof.
  eapply (get_indexes_no_rows (Scripted.execute Sample.script) 0 1 "blank" None);
    [reflexivity | vm_compute; reflexivity].
Defined.

Lemma get_names_rows_witness :
  get_schema_names (Scripted.execute Sample.script) 0
    = (Ok [Some "default"; Some "db"], 1)
  ∧ get_table_names (Scripted.execute Sample.script) Scripted.quote_identifier
      0 (Some "")
    = (Ok [Some "t"; Some "u"], 1).
Proof.
  pose proof (get_names_rows (Scripted.execute Sample.script)
                Scripted.quote_identifier 0 1) as H.
  split.
  - apply (proj1 (proj1 (H _) eq_refl)).
    repeat (apply List.Forall_cons; [done|]). apply List.Forall_nil.
  - apply (proj1 (proj2 (H _) eq_refl (Some "") (or_intror eq_refl))).
    repeat (apply List.Forall_cons; [done|]). apply List.Forall_nil.
Defined.

Lemma query_overrides_witness :
  (ConnectArgs.create_connect_args Sample.url).2 !! "auth"
    = Some (PyStr "NOSASL")
  ∧ (ConnectArgs.http_create_connect_args HiveHTTPSDialect_ Sample.url).2
      !! "auth" = Some (PyStr "NOSASL").
Proof.
  apply (query_overrides Sample.url HiveHTTPSDialect_ "auth" "NOSASL").
  reflexivity.
Defined.


Lemma http_connect_args_witness :
  (ConnectArgs.http_create_connect_args HiveHTTPSDialect_ Sample.url).2
    !! "username" = Some PyNone.
Proof.
  apply (proj2 (proj2 (http_connect_args HiveHTTPSDialect_ Sample.url)));
    reflexivity.
Defined.

Lemma result_processors_idempotent_witness :
  ResultProcessors.HiveDate_process (λ _, Raise (ValueError "no date"))
    (PyDate 2024 2 29)
  = Ok (PyDate 2024 2 29)
  ∧ (PyDate 2024 2 29 = PyNone → PyDatetime 2024 2 29 12 0 0 = PyNone).
Proof.
  apply (proj1 (result_processors_idempotent
                  (λ _, Raise (ValueError "no date"))
                  (λ _, Raise (ValueError "no decimal"))
                  (PyDatetime 2024 2 29 12 0 0) (PyDate 2024 2 29))).
  reflexivity.
Defined.

Lemma HiveArray_init_Ok_witness :
  ∃ it, HiveArrayInstance (Class_ types_Integer) (Some 2%Z) true
          = HiveArrayInstance it (Some 2%Z) true
        ∧ isinstance_HiveArray it = false
        ∧ (∀ s, it ≠ Name s)
        ∧ (it = Class_ HiveArray → Name "int" = Name "array").
Proof.
  apply (HiveArray_init_Ok (Name "int")). vm_compute. reflexivity.
Defined.

Lemma table_properties_items_witness :
  "'b' = '2'" ∈ HiveDDLCompiler.table_properties [("b", "2"); ("a", "1")].
Proof.
  apply (proj2 (table_properties_items [("b", "2"); ("a", "1")]) "b" "2").
  apply elem_of_cons; by left.
Defined.

Lemma visit_insert_Ok_iff_witness :
  ∃ text, HiveCompiler.visit_insert "INSERT INTO t (a) SELECT 1" = Ok text.
Proof.
  apply visit_insert_Ok_iff. left. apply search_is_Some.
  vm_compute. by eexists.
Defined.

Lemma missing_table_consistent_witness :
  ∃ n, get_columns (Scripted.execute Sample.script) 0 "gone" (Some "db")
         (Runtime ∅ [])
       = (Raise (NoSuchTableError n), 1, Runtime ∅ []).
Proof.
  apply (proj1 (missing_table_consistent (Scripted.execute Sample.script)
                  0 1 "gone" (Some "db") (Runtime ∅ []))).
  vm_compute. reflexivity.
Defined.

End SampleFacts.
